(** * api-moderate: the moderation-and-forwarding gateway of [main.go]

    A shallow embedding of the request handler [handleChatCompletions] and of
    the functions it calls ([getUserContent], [splitText], [replaceModelValue],
    [moderateContent], [generateOpenAIStyleResponse], [handleFlaggedContent],
    [logFlaggedContent], [proxyRequest]), followed by the properties of the
    decision pipeline.

    Conventions.
    - A Go [string] is a byte string; it is a Rocq [string] (one [ascii] per
      byte), and [len] is its length as a Go [int], here a [Z].
    - Go [int] values are [Z]; the only arithmetic is on lengths and on the
      constants 4096, 10*1024, 100*1024 and 48000, far from the 64-bit range.
    - A Go [(T, error)] result is a [Result T].
    - [encoding/json], [net/http], the clock, the uuid generator and the file
      system are collaborators of the program, not part of it: they enter the
      model as an interface ([JSON]) and as an environment ([Env]). *)

From Stdlib Require Import ZArith Ascii String List Lia Bool.
From stdpp Require Import base option list gmap strings fin_maps.
From Equations Require Import Equations.

Open Scope string_scope.
Open Scope Z_scope.

(** ** Go values *)

Inductive Result (A : Type) : Type :=
| Ok (a : A)
| Err (msg : string).
Arguments Ok {A} a.
Arguments Err {A} msg.

Definition isErr {A} (r : Result A) : bool :=
  match r with Ok _ => false | Err _ => true end.

(** [len(s)] *)
Definition len (s : string) : Z := Z.of_nat (String.length s).

(** [len(l)] for a slice *)
Definition slen {A} (l : list A) : Z := Z.of_nat (List.length l).

(** [s[lo:hi]] for [0 <= lo <= hi <= len(s)] *)
Definition slice (s : string) (lo hi : Z) : string :=
  substring (Z.to_nat lo) (Z.to_nat (hi - lo)) s.

(** [strings.Join(elems, sep)] *)
Definition Join (elems : list string) (sep : string) : string :=
  String.concat sep elems.

(** ** Data model *)

Record Config := {
  OpenAIAPIKey : string;
  ModerationAPIURL : string;
  TargetURL : string;
  Port : Z;
  WarningMsg : string;
  MinCharsModerate : Z;
  FullContextModerate : bool;
  WhiteListModels : list string
}.

Record Message := {
  Role : string;
  Content : string
}.

Record OpenAIChatReq := {
  Model : string;
  Messages : list Message;
  Stream : bool
}.

(** ** Content extractor *)

(** The [range] loop of [getUserContent]; [userContents] is the slice being
    appended to. *)
Fixpoint collectContents (messages : list Message) (userContents : list string)
  : list string :=
  match messages with
  | [] => userContents
  | msg :: rest =>
      if (Role msg =? "user")%string || (Role msg =? "system")%string
      then collectContents rest (userContents ++ [Content msg])
      else collectContents rest userContents
  end.

Definition getUserContent (messages : list Message) : string :=
  Join (collectContents messages []) " ".

(** The backward loop of [handleChatCompletions]
    [for i := len(Messages) - 1; i >= 0; i-- { if Role == "user" { userContent = Content; break } }].
    The counter [n] is [i + 1]; at [0] the loop is over and [userContent] is
    what it was before the loop. *)
Fixpoint lastUserLoop (messages : list Message) (n : nat) (userContent : string)
  : string :=
  match n with
  | O => userContent
  | S i =>
      match messages !! i with
      | Some msg =>
          if (Role msg =? "user")%string then Content msg
          else lastUserLoop messages i userContent
      | None => userContent
      end
  end.

(** The value of [userContent] when the handler reaches the threshold test
    [len(userContent) >= config.MinCharsModerate]: it is first set from
    [getUserContent], and overwritten by the backward loop only when
    [FullContextModerate] is off and the loop finds a "user" message. *)
Definition moderationText (config : Config) (chatReq : OpenAIChatReq) : string :=
  let userContent := getUserContent (Messages chatReq) in
  if negb (FullContextModerate config) then
    if slen (Messages chatReq) >? 0 then
      lastUserLoop (Messages chatReq) (List.length (Messages chatReq)) userContent
    else userContent
  else userContent.

(** ** Chunker *)

(** The loop of [splitText]: [for i := 0; i < len(text); i += 48000]. *)
Equations? splitLoop (text : string) (i : Z) (result : list string)
  : list string by wf (Z.to_nat (len text - i)) lt :=
  splitLoop text i result with decide (i < len text) => {
    | left _ =>
        let end_ := i + 48000 in
        let end_ := if end_ >? len text then len text else end_ in
        splitLoop text (i + 48000) (result ++ [slice text i end_]);
    | right _ => result }.
Proof. lia. Qed.

Definition splitText (text : string) : list string :=
  if len text <=? 48000 then [text]
  else splitLoop text 0 [].

(** ** Model rewriter: the size decision *)

(** The two [if]s of [handleChatCompletions] that set [replaceModel] from the
    length of the full-context extraction; [""] means no rewrite. *)
Definition chooseReplaceModel (userContent : string) : string :=
  let replaceModel := "" in
  let replaceModel :=
    if (len userContent >? 10 * 1024) && (len userContent <? 100 * 1024)
    then "glm-4-air" else replaceModel in
  let replaceModel :=
    if len userContent >? 100 * 1024 then "glm-4-flash" else replaceModel in
  replaceModel.

(** ** Generic JSON values and the [encoding/json] interface *)

(** A JSON number literal, [mantissa * 10^exponent]. *)
Record Number := {
  mantissa : Z;
  exponent : Z
}.

(** A finite [float64], by the value it holds:
    [significand * 2^binaryExponent], negated if [negative]. The significand
    has at most 53 bits and the exponent is at least -1074. *)
Record float64 := {
  negative : bool;
  significand : Z;
  binaryExponent : Z
}.

(** What [json.Unmarshal] stores in an [interface{}]. *)
#[warnings="-register-all"] Inductive gvalue :=
| GNil
| GBool (b : bool)
| GFloat64 (f : float64)
| GString (s : string)
| GSlice (l : list gvalue)
| GObject (m : gmap string gvalue).

(** The three uses the program makes of [encoding/json] on a request body of
    type [Body] (a [[]byte]): [json.Unmarshal(body, &chatReq)] with
    [chatReq OpenAIChatReq], [json.Unmarshal(input, &data)] with
    [data map[string]interface{}], and [json.Marshal(data)]. *)
Class JSON (Body : Type) := {
  UnmarshalChatReq : Body -> Result OpenAIChatReq;
  UnmarshalMap : Body -> Result (gmap string gvalue);
  MarshalMap : gmap string gvalue -> Result Body
}.

(** ** Response types *)

Record Choice := {
  Index : Z;
  Delta : gmap string string;
  Logprobs : option gvalue;
  FinishReason : string
}.

Record OpenAIStyleResponse := {
  ID : string;
  Object : string;
  Created : Z;
  RespModel : string;
  SystemFingerprint : string;
  Choices : list Choice
}.

Record ModerationResponse := {
  Results : list bool
}.

(** The data of a server-sent event: a Go string, which is either a literal
    or [string(jsonResp)] for the encoding [jsonResp] of a response. *)
Inductive SSEData :=
| JSONOf (response : OpenAIStyleResponse)
| Text (s : string).

(** [c.SSEvent(name, data)] *)
Inductive SSEFrame :=
| SSEvent (name : string) (data : SSEData).

(** What the handler writes to the client. *)
Inductive Reply :=
| ReplyError (status : Z) (error : string)
| ReplyJSON (status : Z) (obj : OpenAIStyleResponse)
| ReplyStream (contentType : string) (frames : list SSEFrame)
| ReplyProxied (status : Z) (payload : string).

Definition StatusOK : Z := 200.
Definition StatusBadRequest : Z := 400.
Definition StatusInternalServerError : Z := 500.

(** ** Collaborators *)

(** One exchange with the moderation endpoint: [http.NewRequest] fails, or
    [httpClient.Do] fails, or a response arrives with a status code and a
    body on which [Decode(&moderationResp)] succeeds or fails. *)
Inductive HttpOutcome :=
| NewRequestFails (e : string)
| DoFails (e : string)
| Responds (StatusCode : Z) (decoded : Result ModerationResponse).

(** One exchange with the downstream target in [proxyRequest]. *)
Inductive ProxyOutcome :=
| ProxyNewRequestFails
| ProxyDoFails
| ProxyResponds (StatusCode : Z) (payload : string).

(** The effects of one request, oldest first: a call of [moderateContent],
    with the map it hands to [json.Marshal] to make the request; the warning
    [logFlaggedContent] logs; a write of [appendToFile] that returned no
    error; a call of [proxyRequest], with the body it is to send. *)
Inductive Event (Body : Type) :=
| EvModerate (jsonData : gmap string string)
| EvFlagged (content : string)
| EvAppend (filename content : string)
| EvProxy (body : Body).
Arguments EvModerate {Body} jsonData.
Arguments EvFlagged {Body} content.
Arguments EvAppend {Body} filename content.
Arguments EvProxy {Body} body.

Definition isModerate {Body} (e : Event Body) : bool :=
  match e with EvModerate _ => true | _ => false end.

Definition isProxy {Body} (e : Event Body) : bool :=
  match e with EvProxy _ => true | _ => false end.

Definition isFlagged {Body} (e : Event Body) : bool :=
  match e with EvFlagged _ => true | _ => false end.

(** Number of calls of [moderateContent] recorded in a trace. *)
Definition moderationCalls {Body} (tr : list (Event Body)) : nat :=
  List.length (List.filter isModerate tr).

(** Everything outside the process that a request depends on. The moderation
    endpoint answers the [n]-th call of this request (counting from 0) as it
    likes; so does the downstream target. *)
Record Env (Body : Type) := {
  moderationAPI : nat -> gmap string string -> HttpOutcome;
  downstream : Body -> ProxyOutcome;
  appendFails : bool;
  uuid1 : string;
  uuid2 : string;
  unixNow : Z
}.
Arguments moderationAPI {Body} e _ _.
Arguments downstream {Body} e _.
Arguments appendFails {Body} e.
Arguments uuid1 {Body} e.
Arguments uuid2 {Body} e.
Arguments unixNow {Body} e.

(** ** A state monad for the trace *)

Definition M (Body A : Type) : Type := list (Event Body) -> A * list (Event Body).

#[export] Instance M_ret {Body} : MRet (M Body) :=
  fun A (a : A) tr => (a, tr).

#[export] Instance M_bind {Body} : MBind (M Body) :=
  fun A B (f : A -> M Body B) (m : M Body A) tr =>
    let '(a, tr') := m tr in f a tr'.

Definition emit {Body} (e : Event Body) : M Body unit :=
  fun tr => (tt, (tr ++ [e])%list).

Definition trace {Body} : M Body (list (Event Body)) := fun tr => (tr, tr).

Section Gateway.

Context {Body : Type} `{!JSON Body}.
Variable config : Config.
Variable env : Env Body.

(** ** Moderation client *)

Definition moderateContent (content : string) : M Body (Result bool) :=
  let model := "text-moderation-latest" in
  let model := if len content <? 4096 then "omni-moderation-latest" else model in
  let jsonData : gmap string string :=
    <["input" := content]> (<["model" := model]> ∅) in
  tr ← trace;
  emit (EvModerate jsonData);;
  match moderationAPI env (moderationCalls tr) jsonData with
  | NewRequestFails e => mret (Err e)
  | DoFails e => mret (Err e)
  | Responds StatusCode decoded =>
      if negb (StatusCode =? StatusOK)
      then mret (Err "moderation API returned status code")
      else
        match decoded with
        | Err e => mret (Err e)
        | Ok moderationResp =>
            let flagged :=
              (slen (Results moderationResp) >? 0)
              && match Results moderationResp with
                 | r0 :: _ => r0
                 | [] => false
                 end in
            mret (Ok flagged)
        end
  end.

(** ** Flag logger *)

(** [appendFails] stands for an error from [os.OpenFile] or from
    [WriteString]. A write that returns no error has written all of
    [content] at the end of the file; what a failed write leaves in the file
    is not modelled. *)
Definition appendToFile (filename content : string) : M Body (Result unit) :=
  if appendFails env then mret (Err "append")
  else emit (EvAppend filename content);; mret (Ok tt).

Definition logFlaggedContent (content : string) : M Body unit :=
  emit (EvFlagged content);;
  _ ← appendToFile "log.txt" (content ++ String "010" "");
  mret tt.

(** ** Response synthesizer *)

Definition generateOpenAIStyleResponse (warningMessage model : string)
  : OpenAIStyleResponse :=
  let model := if (model =? "")%string then "gpt-4o-mini" else model in
  {| ID := "chatcmpl-" ++ slice (uuid1 env) 0 24;
     Object := "chat.completion.chunk";
     Created := unixNow env;
     RespModel := model;
     SystemFingerprint := "fp_" ++ slice (uuid2 env) 0 12;
     Choices :=
       [ {| Index := 0;
            Delta := <["content" := warningMessage]> ∅;
            Logprobs := None;
            FinishReason := "stop" |} ] |}.

(** [c.Stream] runs its step function until it returns [false]; the step
    function here emits two events and returns [false] at once. *)
Definition handleFlaggedContent (isStream : bool) (model : string) : Reply :=
  let response := generateOpenAIStyleResponse (WarningMsg config) model in
  if isStream then
    ReplyStream "text/event-stream"
      [SSEvent "" (JSONOf response); SSEvent "" (Text "[DONE]")]
  else
    ReplyJSON StatusOK response.

(** ** Model rewriter *)

Definition replaceModelValue (input : Body) (newModelValue : string)
  : Result Body :=
  match UnmarshalMap input with
  | Err e => Err ("invalid JSON: " ++ e)
  | Ok data =>
      let data :=
        match data !! "model" with
        | Some model =>
            match model with
            | GString _ => <["model" := GString newModelValue]> data
            | _ => data
            end
        | None => data
        end in
      match MarshalMap data with
      | Err e => Err ("could not encode JSON: " ++ e)
      | Ok output => Ok output
      end
  end.

(** ** Forwarder *)

Definition proxyRequest (body : Body) : M Body Reply :=
  emit (EvProxy body);;
  match downstream env body with
  | ProxyNewRequestFails =>
      mret (ReplyError StatusInternalServerError "Error forwarding request")
  | ProxyDoFails =>
      mret (ReplyError StatusInternalServerError "Error forwarding request")
  | ProxyResponds StatusCode payload => mret (ReplyProxied StatusCode payload)
  end.

(** ** Decision pipeline *)

(** The allow-list loop [for _, model := range config.WhiteListModels]:
    [true] when some entry equals [chatReq.Model]. *)
Fixpoint inWhiteList (models : list string) (requested : string) : bool :=
  match models with
  | [] => false
  | model :: rest =>
      if (model =? requested)%string then true else inWhiteList rest requested
  end.

(** The moderation loop [for _, userContent := range userContents]:
    [Some reply] when the handler returns from inside the loop, [None] when
    the loop runs to its end. *)
Fixpoint moderateLoop (chatReq : OpenAIChatReq) (userContents : list string)
  : M Body (option Reply) :=
  match userContents with
  | [] => mret None
  | userContent :: rest =>
      r ← moderateContent userContent;
      match (r : Result bool) with
      | Err _ =>
          mret (Some (ReplyError StatusInternalServerError "Moderation error"))
      | Ok flagged =>
          if flagged then
            logFlaggedContent userContent;;
            mret (Some (handleFlaggedContent (Stream chatReq) (Model chatReq)))
          else moderateLoop chatReq rest
      end
  end.

(** The size-based rewrite of the body, before the allow-list test. *)
Definition rewriteBody (body : Body) (userContent : string) : Result Body :=
  let replaceModel := chooseReplaceModel userContent in
  if negb (replaceModel =? "")%string
  then replaceModelValue body replaceModel
  else Ok body.

(** [rawBody] is the result of [io.ReadAll(c.Request.Body)]. *)
Definition handleChatCompletions (rawBody : Result Body) : M Body Reply :=
  match rawBody with
  | Err _ => mret (ReplyError StatusBadRequest "Error reading request body")
  | Ok body =>
  match UnmarshalChatReq body with
  | Err e => mret (ReplyError StatusBadRequest e)
  | Ok chatReq =>
  let userContent := getUserContent (Messages chatReq) in
  match rewriteBody body userContent with
  | Err _ =>
      mret (ReplyError StatusInternalServerError "Error replacing model value")
  | Ok body =>
  if inWhiteList (WhiteListModels config) (Model chatReq)
  then proxyRequest body
  else
    let userContent := moderationText config chatReq in
    if len userContent >=? MinCharsModerate config then
      let userContents := splitText userContent in
      r ← moderateLoop chatReq userContents;
      match (r : option Reply) with
      | Some reply => mret reply
      | None => proxyRequest body
      end
    else proxyRequest body
  end end end.

End Gateway.

(** ** A reference [encoding/json]

    Request bodies as JSON documents, with the decoders the handler calls.
    The theorems about the gateway hold for every instance of [JSON]; this
    one runs the gateway on concrete requests. It follows [encoding/json] on
    documents whose object keys are ASCII and distinct: an object key selects
    a struct field when it equals the field's tag up to letter case, other
    keys are skipped without being decoded, [null] leaves a string or a bool
    as it is and empties a slice, a value of the wrong JSON type is an error,
    and in a [map[string]interface{}] every value is decoded, a number through
    [strconv.ParseFloat], which rounds it to the nearest [float64] and fails
    on a literal that rounds to infinity. A string of the document is the
    string [encoding/json] reads from it. [json.Marshal] writes the members
    of a map sorted by key and a number in the shortest decimal that reads
    back as the same [float64]. [Number] has no sign for zero, so a negative
    zero is written as 0. *)

#[warnings="-register-all"] Inductive json :=
| JNull
| JBool (b : bool)
| JNumber (n : Number)
| JString (s : string)
| JArray (elems : list json)
| JObject (members : list (string * json)).

(** [strconv.ParseFloat(s, 64)] reports a range error when the literal is at
    least [2^1024 - 2^970], half an ulp above the largest [float64]. *)
Definition exceedsFloat64 (n : Number) : bool :=
  let limit := 2 ^ 1024 - 2 ^ 970 in
  if 0 <=? exponent n
  then limit <=? Z.abs (mantissa n) * 10 ^ exponent n
  else limit * 10 ^ (- exponent n) <=? Z.abs (mantissa n).

(** The positive rational [num / den] rounded to 53 bits, ties to even: the
    significand and the binary exponent of the nearest [float64]. *)
Definition roundToFloat (num den : Z) : Z * Z :=
  let l := Z.log2 num - Z.log2 den in
  let atLeast :=
    if 0 <=? l then den * 2 ^ l <=? num else den <=? num * 2 ^ (- l) in
  let floorLog2 := if atLeast then l else l - 1 in
  let e := Z.max (floorLog2 - 52) (-1074) in
  let n := if 0 <=? e then num else num * 2 ^ (- e) in
  let d := if 0 <=? e then den * 2 ^ e else den in
  let q := n / d in
  let r := n mod d in
  let q :=
    if 2 * r <? d then q
    else if d <? 2 * r then q + 1
    else if Z.even q then q else q + 1 in
  if q =? 2 ^ 53 then (2 ^ 52, e + 1) else (q, e).

(** The [float64] nearest to [d * 10^k], for [d > 0]. *)
Definition roundDecimal (d k : Z) : Z * Z :=
  if d =? 0 then (0, -1074)
  else if 0 <=? k then roundToFloat (d * 10 ^ k) 1
  else roundToFloat d (10 ^ (- k)).

(** [strconv.ParseFloat(s, 64)] on a literal in range. *)
Definition ParseFloat (n : Number) : float64 :=
  let '(q, e) := roundDecimal (Z.abs (mantissa n)) (exponent n) in
  {| negative := mantissa n <? 0; significand := q; binaryExponent := e |}.

(** The number of decimal digits of [j]. *)
Fixpoint countDigits (fuel : nat) (j : Z) : Z :=
  match fuel with
  | O => 1
  | S fuel => if j <? 10 then 1 else 1 + countDigits fuel (j / 10)
  end.

Fixpoint stripZeros (fuel : nat) (d k : Z) : Z * Z :=
  match fuel with
  | O => (d, k)
  | S fuel =>
      if (d mod 10 =? 0) && negb (d =? 0) then stripZeros fuel (d / 10) (k + 1)
      else (d, k)
  end.

(** The shortest decimal that rounds to the float of significand [q] and
    exponent [e], as [strconv] finds it: [j * 10^x] is the exact value of the
    float, of [len] digits; with [n] digits, the value cut after [n] digits
    and the next decimal above it are tried, and when both round to the
    float the nearer one is taken. *)
Fixpoint shortest (fuel : nat) (q e j x len n : Z) : Z * Z :=
  match fuel with
  | O => (j, x)
  | S fuel =>
      if len <=? n then (j, x)
      else
        let k := len - n in
        let down := j / 10 ^ k in
        let r := j mod 10 ^ k in
        let okdown :=
          let '(q', e') := roundDecimal down (k + x) in (q' =? q) && (e' =? e) in
        let okup :=
          let '(q', e') := roundDecimal (down + 1) (k + x) in (q' =? q) && (e' =? e) in
        if okdown && okup then
          if 2 * r <? 10 ^ k then (down, k + x)
          else if 10 ^ k <? 2 * r then (down + 1, k + x)
          else if Z.even down then (down, k + x) else (down + 1, k + x)
        else if okdown then (down, k + x)
        else if okup then (down + 1, k + x)
        else shortest fuel q e j x len (n + 1)
  end.

(** The number [json.Marshal] writes for a [float64]: the shortest digits,
    with an exponent when the value is below 1e-6 or at least 1e21. *)
Definition FormatFloat (f : float64) : Number :=
  let q := significand f in
  let e := binaryExponent f in
  if q =? 0 then {| mantissa := 0; exponent := 0 |}
  else
    let j := if 0 <=? e then q * 2 ^ e else q * 5 ^ (- e) in
    let x := Z.min e 0 in
    let len := countDigits (Z.to_nat (Z.log2 j) + 1) j in
    let '(d, k) := shortest (Z.to_nat len) q e j x len 1 in
    let '(d, k) := stripZeros (Z.to_nat len) d k in
    let digits := countDigits (Z.to_nat len) d in
    let scientific := (digits + k <? -5) || (21 <? digits + k) in
    let sign := if negative f then -1 else 1 in
    if scientific || (k <? 0) then {| mantissa := sign * d; exponent := k |}
    else {| mantissa := sign * d * 10 ^ k; exponent := 0 |}.

(** The order in which [json.Marshal] writes the keys of a map: sorted as
    byte strings. *)
Fixpoint insertMember (kv : string * json) (members : list (string * json))
  : list (string * json) :=
  match members with
  | [] => [kv]
  | kv' :: rest =>
      if String.leb kv.1 kv'.1 then kv :: members
      else kv' :: insertMember kv rest
  end.

Fixpoint sortMembers (members : list (string * json)) : list (string * json) :=
  match members with
  | [] => []
  | kv :: rest => insertMember kv (sortMembers rest)
  end.

Definition lowerAscii (c : ascii) : ascii :=
  let n := nat_of_ascii c in
  if ((65 <=? n) && (n <=? 90))%nat then ascii_of_nat (n + 32) else c.

Fixpoint lower (s : string) : string :=
  match s with
  | EmptyString => EmptyString
  | String c rest => String (lowerAscii c) (lower rest)
  end.

(** Decoding into [interface{}]. *)
Fixpoint decodeValue (j : json) : Result gvalue :=
  match j with
  | JNull => Ok GNil
  | JBool b => Ok (GBool b)
  | JNumber n =>
      if exceedsFloat64 n
      then Err "json: cannot unmarshal number into Go value of type float64"
      else Ok (GFloat64 (ParseFloat n))
  | JString s => Ok (GString s)
  | JArray elems =>
      let decodeElems :=
        fix decodeElems (l : list json) : Result (list gvalue) :=
          match l with
          | [] => Ok []
          | x :: rest =>
              match decodeValue x, decodeElems rest with
              | Ok v, Ok vs => Ok (v :: vs)
              | Err e, _ => Err e
              | _, Err e => Err e
              end
          end in
      match decodeElems elems with
      | Ok vs => Ok (GSlice vs)
      | Err e => Err e
      end
  | JObject members =>
      let decodeMembers :=
        fix decodeMembers (l : list (string * json)) (m : gmap string gvalue)
          : Result (gmap string gvalue) :=
          match l with
          | [] => Ok m
          | (k, x) :: rest =>
              match decodeValue x with
              | Ok v => decodeMembers rest (<[k := v]> m)
              | Err e => Err e
              end
          end in
      match decodeMembers members ∅ with
      | Ok m => Ok (GObject m)
      | Err e => Err e
      end
  end.

(** [json.Unmarshal(input, &data)] with [data map[string]interface{}]; a
    [nil] map and an empty one are both [∅]. *)
Definition decodeMap (j : json) : Result (gmap string gvalue) :=
  match j with
  | JNull => Ok ∅
  | JObject _ =>
      match decodeValue j with
      | Ok (GObject m) => Ok m
      | Ok _ => Err "json: cannot unmarshal into Go value of type map[string]interface {}"
      | Err e => Err e
      end
  | _ => Err "json: cannot unmarshal into Go value of type map[string]interface {}"
  end.

(** Decoding into a [Message]. *)
Fixpoint decodeMessageFields (l : list (string * json)) (msg : Message)
  : Result Message :=
  match l with
  | [] => Ok msg
  | (k, v) :: rest =>
      if (lower k =? "role")%string then
        match v with
        | JString s => decodeMessageFields rest {| Role := s; Content := Content msg |}
        | JNull => decodeMessageFields rest msg
        | _ => Err "json: cannot unmarshal into Go struct field Message.role of type string"
        end
      else if (lower k =? "content")%string then
        match v with
        | JString s => decodeMessageFields rest {| Role := Role msg; Content := s |}
        | JNull => decodeMessageFields rest msg
        | _ => Err "json: cannot unmarshal into Go struct field Message.content of type string"
        end
      else decodeMessageFields rest msg
  end.

Definition decodeMessage (j : json) : Result Message :=
  match j with
  | JNull => Ok {| Role := ""; Content := "" |}
  | JObject members => decodeMessageFields members {| Role := ""; Content := "" |}
  | _ => Err "json: cannot unmarshal into Go value of type main.Message"
  end.

Fixpoint decodeMessages (l : list json) : Result (list Message) :=
  match l with
  | [] => Ok []
  | x :: rest =>
      match decodeMessage x, decodeMessages rest with
      | Ok m, Ok ms => Ok (m :: ms)
      | Err e, _ => Err e
      | _, Err e => Err e
      end
  end.

(** Decoding into an [OpenAIChatReq]. *)
Fixpoint decodeChatReqFields (l : list (string * json)) (chatReq : OpenAIChatReq)
  : Result OpenAIChatReq :=
  match l with
  | [] => Ok chatReq
  | (k, v) :: rest =>
      if (lower k =? "model")%string then
        match v with
        | JString s =>
            decodeChatReqFields rest
              {| Model := s; Messages := Messages chatReq; Stream := Stream chatReq |}
        | JNull => decodeChatReqFields rest chatReq
        | _ => Err "json: cannot unmarshal into Go struct field OpenAIChatReq.model of type string"
        end
      else if (lower k =? "messages")%string then
        match v with
        | JArray elems =>
            match decodeMessages elems with
            | Ok ms =>
                decodeChatReqFields rest
                  {| Model := Model chatReq; Messages := ms; Stream := Stream chatReq |}
            | Err e => Err e
            end
        | JNull =>
            decodeChatReqFields rest
              {| Model := Model chatReq; Messages := []; Stream := Stream chatReq |}
        | _ => Err "json: cannot unmarshal into Go struct field OpenAIChatReq.messages of type []main.Message"
        end
      else if (lower k =? "stream")%string then
        match v with
        | JBool b =>
            decodeChatReqFields rest
              {| Model := Model chatReq; Messages := Messages chatReq; Stream := b |}
        | JNull => decodeChatReqFields rest chatReq
        | _ => Err "json: cannot unmarshal into Go struct field OpenAIChatReq.stream of type bool"
        end
      else decodeChatReqFields rest chatReq
  end.

(** [json.Unmarshal(body, &chatReq)] *)
Definition decodeChatReq (j : json) : Result OpenAIChatReq :=
  let zero := {| Model := ""; Messages := []; Stream := false |} in
  match j with
  | JNull => Ok zero
  | JObject members => decodeChatReqFields members zero
  | _ => Err "json: cannot unmarshal into Go value of type main.OpenAIChatReq"
  end.

(** Encoding of an [interface{}] that holds decoded JSON. *)
Fixpoint encodeValue (v : gvalue) : json :=
  match v with
  | GNil => JNull
  | GBool b => JBool b
  | GFloat64 f => JNumber (FormatFloat f)
  | GString s => JString s
  | GSlice l => JArray (List.map encodeValue l)
  | GObject m => JObject (sortMembers (map_to_list (encodeValue <$> m)))
  end.

(** [json.Marshal(data)] *)
Definition encodeMap (data : gmap string gvalue) : Result json :=
  Ok (JObject (sortMembers (map_to_list (encodeValue <$> data)))).

#[export] Instance refJSON : JSON json := {|
  UnmarshalChatReq := decodeChatReq;
  UnmarshalMap := decodeMap;
  MarshalMap := encodeMap
|}.

(** ** Concrete requests and environments *)

(** [n] copies of the byte [c]. *)
Fixpoint repeatByte (c : ascii) (n : nat) : string :=
  match n with
  | O => EmptyString
  | S k => String c (repeatByte c k)
  end.

Definition messageJSON (role content : string) : json :=
  JObject [("role", JString role); ("content", JString content)].

(** [{"model": model, "messages": [...], "stream": stream} + extra members] *)
Definition requestJSON (model : string) (messages : list (string * string))
    (stream : bool) (extra : list (string * json)) : json :=
  JObject ([("model", JString model);
            ("messages", JArray (List.map (fun m => messageJSON m.1 m.2) messages));
            ("stream", JBool stream)] ++ extra).

Definition unflagged : HttpOutcome :=
  Responds 200 (Ok {| Results := [false] |}).

Definition flagged : HttpOutcome :=
  Responds 200 (Ok {| Results := [true] |}).

(** An environment whose moderation endpoint answers the [n]-th call with
    [answers n], and whose downstream target answers 200 "ok". *)
Definition envWith (answers : nat -> HttpOutcome) : Env json := {|
  moderationAPI := fun n _ => answers n;
  downstream := fun _ => ProxyResponds 200 "ok";
  appendFails := false;
  uuid1 := "123e4567-e89b-12d3-a456-426614174000";
  uuid2 := "00112233-4455-6677-8899-aabbccddeeff";
  unixNow := 1700000000
|}.

Definition configWith (minChars : Z) (fullContext : bool) (whiteList : list string)
  : Config := {|
  OpenAIAPIKey := "sk-test";
  ModerationAPIURL := "https://api.openai.com/v1/moderations";
  TargetURL := "https://api.openai.com/v1/chat/completions";
  Port := 8080;
  WarningMsg := "content rejected";
  MinCharsModerate := minChars;
  FullContextModerate := fullContext;
  WhiteListModels := whiteList
|}.

(** ** Vocabulary of the properties *)

(** The value a decoder reads under key [k] of an object: that of the last
    member of that name. *)
Fixpoint field (k : string) (members : list (string * json)) : option json :=
  match members with
  | [] => None
  | (k', v) :: rest =>
      match field k rest with
      | Some v' => Some v'
      | None => if (k =? k')%string then Some v else None
      end
  end.

(** The same for a document. *)
Definition member (k : string) (j : json) : option json :=
  match j with
  | JObject members => field k members
  | _ => None
  end.

(** Two literals denote the same number. *)
Definition sameNumber (a b : Number) : bool :=
  let e := Z.min (exponent a) (exponent b) in
  mantissa a * 10 ^ (exponent a - e) =? mantissa b * 10 ^ (exponent b - e).

(** Two documents hold the same value: the same null, boolean or string,
    literals of the same number, arrays of the same length with the same
    value at each index, objects with the same keys and the same value under
    each key, in whatever order their members come. *)
Fixpoint sameValue (a b : json) {struct a} : bool :=
  match a, b with
  | JNull, JNull => true
  | JBool x, JBool y => Bool.eqb x y
  | JNumber x, JNumber y => sameNumber x y
  | JString x, JString y => (x =? y)%string
  | JArray la, JArray lb =>
      (fix sameElems (la lb : list json) : bool :=
         match la, lb with
         | [], [] => true
         | x :: la, y :: lb => sameValue x y && sameElems la lb
         | _, _ => false
         end) la lb
  | JObject la, JObject lb =>
      (fix sameFields (l : list (string * json)) : bool :=
         match l with
         | [] => true
         | (k, va) :: rest =>
             match field k rest with
             | Some _ => sameFields rest
             | None =>
                 match field k lb with
                 | Some vb => sameValue va vb && sameFields rest
                 | None => false
                 end
             end
         end) la
      && forallb (fun kv => match field kv.1 la with
                            | Some _ => true
                            | None => false
                            end) lb
  | _, _ => false
  end.

(** The document with every number replaced by the shortest decimal of the
    [float64] nearest to it. *)
Fixpoint roundNumbers (j : json) : json :=
  match j with
  | JNumber n => JNumber (FormatFloat (ParseFloat n))
  | JArray elems => JArray (List.map roundNumbers elems)
  | JObject members =>
      JObject (List.map (fun kv => (kv.1, roundNumbers kv.2)) members)
  | _ => j
  end.

(** The request [moderateContent] sends for a chunk. *)
Definition moderationInput (content : string) : gmap string string :=
  <["input" := content]>
    (<["model" := if len content <? 4096 then "omni-moderation-latest"
                  else "text-moderation-latest"]> ∅).

(** What [moderateContent] makes of an exchange with the endpoint. *)
Definition verdict (o : HttpOutcome) : Result bool :=
  match o with
  | NewRequestFails e => Err e
  | DoFails e => Err e
  | Responds StatusCode decoded =>
      if StatusCode =? 200 then
        match decoded with
        | Err e => Err e
        | Ok moderationResp =>
            Ok match Results moderationResp with
               | r0 :: _ => r0
               | [] => false
               end
        end
      else Err "moderation API returned status code"
  end.

(** The verdict on [content] when it is the subject of the [n]-th call. *)
Definition chunkVerdict {Body} (env : Env Body) (n : nat) (content : string)
  : Result bool :=
  verdict (moderationAPI env n (moderationInput content)).

(** No response was obtained: the request could not be built or sent. *)
Definition transportFailure (o : HttpOutcome) : Prop :=
  match o with
  | NewRequestFails _ | DoFails _ => True
  | Responds _ _ => False
  end.

(** A response arrived with a status other than 200. *)
Definition nonSuccessStatus (o : HttpOutcome) : Prop :=
  match o with
  | Responds StatusCode _ => StatusCode <> 200
  | _ => False
  end.

(** A response arrived whose body does not decode into a
    [ModerationResponse]. *)
Definition unparsableBody (o : HttpOutcome) : Prop :=
  match o with
  | Responds _ (Err _) => True
  | _ => False
  end.

(** The trace of moderating [chunks] one after the other. *)
Definition moderated {Body} (chunks : list string) : list (Event Body) :=
  List.map (fun c => EvModerate (moderationInput c)) chunks.

(** The trace of [logFlaggedContent]. *)
Definition flagLog {Body} (env : Env Body) (content : string) : list (Event Body) :=
  EvFlagged content ::
  (if appendFails env then []
   else [EvAppend "log.txt" (content ++ String "010" "")]).

(** The content of the last message of role "user", if there is one. *)
Fixpoint lastUser (messages : list Message) : option string :=
  match messages with
  | [] => None
  | msg :: rest =>
      match lastUser rest with
      | Some c => Some c
      | None => if (Role msg =? "user")%string then Some (Content msg) else None
      end
  end.

(** ** Flag log file and its viewer *)

(** The environment [env] with the outcome of [appendToFile] set to
    [fails]. *)
Definition withAppendFails {Body} (fails : bool) (env : Env Body) : Env Body := {|
  moderationAPI := moderationAPI env;
  downstream := downstream env;
  appendFails := fails;
  uuid1 := uuid1 env;
  uuid2 := uuid2 env;
  unixNow := unixNow env
|}.

(** The content of [log.txt] after the writes of a trace, when it was [file]
    before: [appendToFile] opens the file with [O_APPEND|O_CREATE] and writes
    at its end. *)
Fixpoint logFileAfter {Body} (file : string) (tr : list (Event Body)) : string :=
  match tr with
  | [] => file
  | EvAppend filename content :: rest =>
      if (filename =? "log.txt")%string
      then logFileAfter (file ++ content) rest
      else logFileAfter file rest
  | _ :: rest => logFileAfter file rest
  end.

(** [strings.ReplaceAll(s, old, new)] for an [old] of one byte. *)
Fixpoint ReplaceAll (s : string) (old : ascii) (new : string) : string :=
  match s with
  | EmptyString => EmptyString
  | String c rest =>
      if Ascii.eqb c old then new ++ ReplaceAll rest old new
      else String c (ReplaceAll rest old new)
  end.

(** What [GetBanndedContent] writes to the client. *)
Inductive ViewerReply :=
| ViewerError (status : Z) (error : string)
| ViewerData (status : Z) (contentType : string) (data : string).

(** [file] is the result of [os.ReadFile("log.txt")]. *)
Definition GetBanndedContent (file : Result string) : ViewerReply :=
  match file with
  | Err _ => ViewerError StatusOK "读取文件错误"
  | Ok file =>
      let htmlContent := ReplaceAll file "010" "<br>" in
      let htmlResponse := "<html><body>" ++ htmlContent ++ "</body></html>" in
      ViewerData StatusOK "text/html; charset=utf-8" htmlResponse
  end.

(** ** Headers *)

(** [textproto]'s table of the bytes allowed in a header field name: the
    token characters of RFC 7230. *)
Definition validHeaderFieldByte (c : ascii) : bool :=
  let n := nat_of_ascii c in
  ((48 <=? n) && (n <=? 57) || (65 <=? n) && (n <=? 90) || (97 <=? n) && (n <=? 122)
   || (n =? 33) || (35 <=? n) && (n <=? 39) || (n =? 42) || (n =? 43)
   || (n =? 45) || (n =? 46) || (n =? 94) || (n =? 95) || (n =? 96)
   || (n =? 124) || (n =? 126))%nat.

Fixpoint allBytes (p : ascii -> bool) (s : string) : bool :=
  match s with
  | EmptyString => true
  | String c rest => p c && allBytes p rest
  end.

(** The loop of [canonicalMIMEHeaderKey]: upper case at the start and after
    each dash, lower case elsewhere. *)
Fixpoint canonicalLoop (a : string) (upper : bool) : string :=
  match a with
  | EmptyString => EmptyString
  | String c rest =>
      let n := nat_of_ascii c in
      let c :=
        if (upper && (97 <=? n) && (n <=? 122))%nat then ascii_of_nat (n - 32)
        else if (negb upper && (65 <=? n) && (n <=? 90))%nat then ascii_of_nat (n + 32)
        else c in
      String c (canonicalLoop rest (Ascii.eqb c "-"))
  end.

(** [textproto.CanonicalMIMEHeaderKey(s)]: a key with a byte outside the
    table is returned as it is. *)
Definition CanonicalMIMEHeaderKey (s : string) : string :=
  if allBytes validHeaderFieldByte s then canonicalLoop s true else s.

(** [h.Set(key, value)] on an [http.Header]. *)
Definition HeaderSet (key value : string) (h : gmap string (list string))
  : gmap string (list string) :=
  <[CanonicalMIMEHeaderKey key := [value]]> h.

(** [setHeaders(req, headers)], the entries of [headers] being visited in
    the order [order] (Go leaves the order of a [range] over a map open). *)
Definition setHeadersIn (order : list (string * string))
    (header : gmap string (list string)) : gmap string (list string) :=
  foldl (fun h kv => HeaderSet kv.1 kv.2 h) header order.

(** [copyHeaders(src, dest)], the entries of [src] being visited in the
    order [order]. *)
Definition copyHeadersIn (order : list (string * list string))
    (dest : gmap string (list string)) : gmap string (list string) :=
  foldl (fun d nv => <[nv.1 := nv.2]> d) dest order.

(** The map literal [moderateContent] passes to [setHeaders]. *)
Definition moderationHeaders (config : Config) : gmap string string :=
  <["Content-Type" := "application/json"]>
    (<["Authorization" := "Bearer " ++ OpenAIAPIKey config]> ∅).

(** The header of the request [proxyRequest] sends: the inbound header
    [inbound], visited in the order [order], copied onto the empty header of
    the new request, then [Content-Type] set. *)
Definition proxyRequestHeader (order : list (string * list string))
  : gmap string (list string) :=
  HeaderSet "Content-Type" "application/json" (copyHeadersIn order ∅).

(** ** Vocabulary of the further properties *)

(** The replies of [proxyRequest]. *)
Definition isProxyReply (reply : Reply) : Prop :=
  reply = ReplyError 500 "Error forwarding request"
  \/ exists (status : Z) (payload : string), reply = ReplyProxied status payload.

(** The status of the response the client gets: the one given to [c.JSON],
    200 for the stream of [handleFlaggedContent], which sets none, and the
    target's own for a relayed response. *)
Definition replyStatus (reply : Reply) : Z :=
  match reply with
  | ReplyError status _ => status
  | ReplyJSON status _ => status
  | ReplyStream _ _ => 200
  | ReplyProxied status _ => status
  end.

Definition isAppend {Body} (e : Event Body) : bool :=
  match e with EvAppend _ _ => true | _ => false end.

(** A trace without its file writes. *)
Definition withoutAppends {Body} (tr : list (Event Body)) : list (Event Body) :=
  List.filter (fun e => negb (isAppend e)) tr.

(** * Properties *)

Open Scope list_scope.

(** ** Byte strings *)

Lemma len_nonneg (s : string) : 0 <= len s.
Proof. unfold len. lia. Qed.

Lemma append_nil_l (t : string) : ("" ++ t)%string = t.
Proof. reflexivity. Qed.

Lemma append_cons (c : ascii) (s t : string) :
  (String c s ++ t)%string = String c (s ++ t).
Proof. reflexivity. Qed.

Lemma append_nil_r (s : string) : (s ++ "")%string = s.
Proof.
  induction s as [|c s IH]; [reflexivity|]. now rewrite append_cons, IH.
Qed.

Lemma append_assoc (s t u : string) :
  ((s ++ t) ++ u)%string = (s ++ (t ++ u))%string.
Proof.
  induction s as [|c s IH]; [reflexivity|]. now rewrite !append_cons, IH.
Qed.

Lemma len_app (s t : string) : len (s ++ t) = len s + len t.
Proof.
  unfold len. induction s as [|c s IH].
  - rewrite append_nil_l. simpl. lia.
  - rewrite append_cons. simpl String.length. lia.
Qed.

Lemma substring_nil (n : nat) (s : string) : substring n 0 s = "".
Proof.
  revert n. induction s as [|c s IH]; intros [|n]; simpl; auto.
Qed.

Lemma substring_whole (s : string) : substring 0 (String.length s) s = s.
Proof. induction s as [|c s IH]; simpl; [reflexivity|]. now rewrite IH. Qed.

Lemma substring_past (n m : nat) (s : string) :
  (String.length s <= n)%nat -> substring n m s = "".
Proof.
  revert n m. induction s as [|c s IH]; intros n m Hn; simpl in *.
  - destruct n, m; reflexivity.
  - destruct n as [|n]; [lia|]. apply IH. lia.
Qed.

Lemma substring_length (n m : nat) (s : string) :
  (n + m <= String.length s)%nat -> String.length (substring n m s) = m.
Proof.
  revert n m. induction s as [|c s IH]; intros n m Hn; simpl in *.
  - destruct n, m; simpl; lia.
  - destruct n as [|n].
    + destruct m as [|m]; simpl; [reflexivity|]. rewrite IH; lia.
    + apply IH. lia.
Qed.

Lemma substring_split (n a b : nat) (s : string) :
  substring n (a + b) s = (substring n a s ++ substring (n + a) b s)%string.
Proof.
  revert n a. induction s as [|c s IH]; intros n a.
  - destruct n, a, b; reflexivity.
  - destruct n as [|n]; simpl.
    + destruct a as [|a]; simpl; [reflexivity|].
      now rewrite append_cons, (IH 0%nat a).
    + apply IH.
Qed.

Lemma concat_snoc (l : list string) (x : string) :
  String.concat "" (l ++ [x]) = (String.concat "" l ++ x)%string.
Proof.
  induction l as [|y l IH]; simpl; [reflexivity|].
  destruct l as [|z l].
  - reflexivity.
  - simpl in IH |- *. rewrite IH, !append_nil_l. now rewrite append_assoc.
Qed.

Lemma concat_cons (x : string) (l : list string) :
  String.concat "" (x :: l) = (x ++ String.concat "" l)%string.
Proof.
  destruct l as [|y l]; simpl; [|reflexivity].
  now rewrite append_nil_r.
Qed.

(** ** Chunker *)

Lemma slice_len (s : string) (lo hi : Z) :
  0 <= lo <= hi -> hi <= len s -> len (slice s lo hi) = hi - lo.
Proof.
  intros H1 H2. unfold slice, len in *. rewrite substring_length; lia.
Qed.

Lemma splitLoop_step (text : string) (i : Z) (result : list string) :
  splitLoop text i result =
    if decide (i < len text) then
      splitLoop text (i + 48000)
        (result ++ [slice text i (if i + 48000 >? len text then len text else i + 48000)])
    else result.
Proof.
  rewrite splitLoop_equation_1. unfold splitLoop_clause_1.
  destruct (decide (i < len text)); reflexivity.
Qed.

(** The chunks the loop appends from position [i] on: they cover the text
    from [i] to its end, none is longer than 48000, and only the last one
    can be shorter. *)
Lemma splitLoop_spec (text : string) (n : nat) :
  forall (i : Z) (result : list string),
    0 <= i -> Z.to_nat (len text - i) = n ->
    exists tail : list string,
      splitLoop text i result = (result ++ tail)%list
      /\ String.concat "" tail = slice text i (Z.max i (len text))
      /\ Forall (fun c => len c <= 48000) tail
      /\ (forall (j : nat) (c : string),
            tail !! j = Some c -> (S j < List.length tail)%nat -> len c = 48000)
      /\ (len text <= i -> tail = []).
Proof.
  induction n as [n IH] using lt_wf_ind. intros i result Hi Hn.
  rewrite splitLoop_step. destruct (decide (i < len text)) as [Hlt|Hge].
  - set (e := if i + 48000 >? len text then len text else i + 48000).
    assert (He : i < e <= len text /\ e <= i + 48000
                 /\ (i + 48000 <= len text -> e = i + 48000)).
    { unfold e. destruct (Z.gtb_spec (i + 48000) (len text)); lia. }
    destruct (IH (Z.to_nat (len text - (i + 48000))) ltac:(lia)
                (i + 48000) (result ++ [slice text i e])%list ltac:(lia) eq_refl)
      as (tail & Heq & Hcat & Hall & Hfull & Hnil).
    exists (slice text i e :: tail). repeat split.
    + rewrite Heq, <- app_assoc. reflexivity.
    + rewrite concat_cons, Hcat. unfold slice.
      destruct (Z_le_gt_dec (len text) (i + 48000)) as [Hle|Hgt].
      * rewrite (substring_past (Z.to_nat (i + 48000))); [|unfold len in *; lia].
        assert (e = len text) as -> by (unfold e; destruct (Z.gtb_spec (i + 48000) (len text)); lia).
        rewrite Z.max_r by lia.
        apply append_nil_r.
      * rewrite !Z.max_r by lia.
        replace (Z.to_nat (len text - i))
          with (Z.to_nat (e - i) + Z.to_nat (len text - (i + 48000)))%nat by lia.
        rewrite substring_split. do 2 f_equal. lia.
    + constructor; [|exact Hall]. rewrite slice_len; lia.
    + intros [|j] c Hj Hlast; simpl in *.
      * injection Hj as <-. rewrite slice_len by lia.
        destruct (Z_le_gt_dec (len text) (i + 48000)) as [Hle|Hgt].
        -- rewrite (Hnil Hle) in Hlast. simpl in Hlast. lia.
        -- lia.
      * apply (Hfull j c Hj). lia.
    + intros Hle. lia.
  - exists []. repeat split.
    + now rewrite app_nil_r.
    + unfold slice. rewrite Z.max_l by lia. replace (i - i) with 0 by lia.
      simpl. now rewrite substring_nil.
    + constructor.
    + intros j c Hj. destruct j; discriminate.
Qed.

(** C3. For every text, [splitText] returns chunks whose concatenation in
    order is the text, each of length at most 48000 and each but the last of
    length exactly 48000; a text of length at most 48000 is returned as the
    single chunk. *)
Theorem splitText_lossless_bounded (text : string) :
  String.concat "" (splitText text) = text
  /\ Forall (fun c => len c <= 48000) (splitText text)
  /\ (forall (j : nat) (c : string),
        splitText text !! j = Some c ->
        (S j < List.length (splitText text))%nat -> len c = 48000)
  /\ (len text <= 48000 -> splitText text = [text]).
Proof.
  unfold splitText. destruct (Z.leb_spec (len text) 48000) as [Hle|Hgt].
  - split; [|split; [|split]].
    + simpl. reflexivity.
    + constructor; [exact Hle|constructor].
    + intros j c Hj Hlast. simpl in Hlast. lia.
    + reflexivity.
  - destruct (splitLoop_spec text _ 0 [] ltac:(lia) eq_refl)
      as (tail & Heq & Hcat & Hall & Hfull & _).
    simpl in Heq. rewrite Heq. split; [|split; [|split]]; auto.
    + rewrite Hcat. unfold slice. pose proof (len_nonneg text).
      rewrite Z.max_r by lia. rewrite Z.sub_0_r. unfold len.
      rewrite Nat2Z.id. apply substring_whole.
    + lia.
Qed.

(** ** Content extractor *)

Lemma lastUser_snoc (messages : list Message) (msg : Message) :
  lastUser (messages ++ [msg]) =
    if (Role msg =? "user")%string then Some (Content msg) else lastUser messages.
Proof.
  induction messages as [|m messages IH]; simpl.
  - reflexivity.
  - rewrite IH. destruct (Role msg =? "user")%string; [reflexivity|].
    reflexivity.
Qed.

Lemma lastUserLoop_take (messages : list Message) (n : nat) (userContent : string) :
  (n <= List.length messages)%nat ->
  lastUserLoop messages n userContent =
    default userContent (lastUser (take n messages)).
Proof.
  induction n as [|i IH]; intros Hn; simpl.
  - destruct messages; reflexivity.
  - destruct (lookup_lt_is_Some_2 messages i ltac:(lia)) as [msg Hmsg].
    rewrite Hmsg, (take_S_r _ _ _ Hmsg), lastUser_snoc.
    destruct (Role msg =? "user")%string; [reflexivity|]. apply IH. lia.
Qed.

(** In last-message mode the text under the threshold test is the content of
    the last "user" message when there is one, and otherwise what
    [getUserContent] returned. *)
Lemma moderationText_last_mode (config : Config) (chatReq : OpenAIChatReq) :
  FullContextModerate config = false ->
  moderationText config chatReq =
    default (getUserContent (Messages chatReq)) (lastUser (Messages chatReq)).
Proof.
  intros Hmode. unfold moderationText. rewrite Hmode. simpl negb. cbv iota.
  destruct (Messages chatReq) as [|m ms] eqn:Hms.
  - reflexivity.
  - replace (slen (m :: ms) >? 0) with true
      by (symmetry; apply Z.gtb_lt; unfold slen; simpl List.length; lia).
    rewrite lastUserLoop_take by lia. now rewrite firstn_all.
Qed.

Lemma moderationText_full_mode (config : Config) (chatReq : OpenAIChatReq) :
  FullContextModerate config = true ->
  moderationText config chatReq = getUserContent (Messages chatReq).
Proof. intros Hmode. unfold moderationText. now rewrite Hmode. Qed.

(** ** Model rewriter: the size decision *)

Lemma chooseReplaceModel_cases (userContent : string) :
  let n := len userContent in
  (n <= 10240 -> chooseReplaceModel userContent = "")
  /\ (10240 < n < 102400 -> chooseReplaceModel userContent = "glm-4-air")
  /\ (n = 102400 -> chooseReplaceModel userContent = "")
  /\ (102400 < n -> chooseReplaceModel userContent = "glm-4-flash").
Proof.
  unfold chooseReplaceModel. change (10 * 1024) with 10240.
  change (100 * 1024) with 102400.
  destruct (Z.gtb_spec (len userContent) 10240),
           (Z.ltb_spec (len userContent) 102400),
           (Z.gtb_spec (len userContent) 102400); simpl; repeat split; intros; try lia; reflexivity.
Qed.

(** ** The gateway, for every [encoding/json] and every environment *)

Section GatewayProperties.

Context {Body : Type} `{!JSON Body}.
Variable config : Config.
Variable env : Env Body.

Implicit Types (tr : list (Event Body)) (chunks : list string).

Ltac run := unfold mbind, M_bind, mret, M_ret, emit, trace; simpl.

Lemma moderationCalls_app tr1 tr2 :
  moderationCalls (tr1 ++ tr2) = (moderationCalls tr1 + moderationCalls tr2)%nat.
Proof. unfold moderationCalls. now rewrite List.filter_app, length_app. Qed.

Lemma moderationCalls_snoc tr (jsonData : gmap string string) :
  moderationCalls (tr ++ [EvModerate jsonData]) = S (moderationCalls tr).
Proof. rewrite moderationCalls_app. unfold moderationCalls. simpl. lia. Qed.

Lemma moderationCalls_moderated chunks :
  moderationCalls (moderated (Body := Body) chunks) = List.length chunks.
Proof.
  unfold moderationCalls, moderated.
  induction chunks as [|c chunks IH]; simpl; [reflexivity|]. now rewrite IH.
Qed.

Lemma moderationCalls_flagLog content :
  moderationCalls (flagLog env content) = 0%nat.
Proof. unfold moderationCalls, flagLog. now destruct (appendFails env). Qed.

Lemma noProxy_moderated chunks :
  List.filter isProxy (moderated (Body := Body) chunks) = [].
Proof. unfold moderated. induction chunks; simpl; auto. Qed.

Lemma noProxy_flagLog content : List.filter isProxy (flagLog env content) = [].
Proof. unfold flagLog. now destruct (appendFails env). Qed.

Lemma noFlagged_moderated chunks :
  List.filter isFlagged (moderated (Body := Body) chunks) = [].
Proof. unfold moderated. induction chunks; simpl; auto. Qed.

(** One call of the moderation client: one event, and the verdict on the
    endpoint's answer. *)
Lemma moderateContent_run content tr :
  moderateContent env content tr =
    (chunkVerdict env (moderationCalls tr) content,
     tr ++ [EvModerate (moderationInput content)]).
Proof.
  unfold moderateContent, chunkVerdict, moderationInput, verdict. run.
  unfold StatusOK.
  destruct (moderationAPI env (moderationCalls tr) _) as [e|e|st [resp|e]];
    try reflexivity.
  - destruct (st =? 200); simpl; [|reflexivity].
    destruct (Results resp) as [|r0 rs]; [reflexivity|].
    replace (slen (r0 :: rs) >? 0) with true; [reflexivity|].
    symmetry. apply Z.gtb_lt. unfold slen. simpl List.length. lia.
  - destruct (st =? 200); reflexivity.
Qed.

Lemma logFlaggedContent_run content tr :
  logFlaggedContent env content tr = (tt, tr ++ flagLog env content).
Proof.
  unfold logFlaggedContent, appendToFile, flagLog. run.
  destruct (appendFails env); run; [reflexivity|].
  now rewrite <- app_assoc.
Qed.

Lemma proxyRequest_run body tr :
  exists reply, proxyRequest env body tr = (reply, tr ++ [EvProxy body]).
Proof.
  unfold proxyRequest. run. destruct (downstream env body); eauto.
Qed.

Lemma proxyRequest_trace body tr :
  (proxyRequest env body tr).2 = tr ++ [EvProxy body].
Proof. destruct (proxyRequest_run body tr) as [reply ->]. reflexivity. Qed.

(** The loop over chunks that are all passed: every chunk is moderated, in
    order, and the loop falls through. *)
Lemma moderateLoop_all_clean chatReq chunks : forall tr,
  (forall (j : nat) (c : string),
     chunks !! j = Some c ->
     chunkVerdict env (moderationCalls tr + j) c = Ok false) ->
  moderateLoop config env chatReq chunks tr = (None, tr ++ moderated chunks).
Proof.
  induction chunks as [|c chunks IH]; intros tr Hclean; simpl.
  - run. now rewrite app_nil_r.
  - unfold mbind, M_bind. rewrite moderateContent_run.
    pose proof (Hclean 0%nat c eq_refl) as H0.
    rewrite Nat.add_0_r in H0. rewrite H0, IH.
    + now rewrite <- app_assoc.
    + intros j c' Hj. rewrite moderationCalls_snoc.
      replace (S (moderationCalls tr) + j)%nat
        with (moderationCalls tr + S j)%nat by lia.
      apply Hclean. exact Hj.
Qed.

(** The loop stops at the first chunk that is not passed: the chunks before
    it and the chunk itself have been moderated once each, the chunks after
    it not at all. *)
Lemma moderateLoop_stops chatReq pre chunk post tr :
  (forall (j : nat) (c : string),
     pre !! j = Some c ->
     chunkVerdict env (moderationCalls tr + j) c = Ok false) ->
  moderateLoop config env chatReq (pre ++ chunk :: post) tr =
    match chunkVerdict env (moderationCalls tr + List.length pre) chunk with
    | Ok false =>
        moderateLoop config env chatReq post (tr ++ moderated (pre ++ [chunk]))
    | Ok true =>
        (Some (handleFlaggedContent config env (Stream chatReq) (Model chatReq)),
         tr ++ moderated (pre ++ [chunk]) ++ flagLog env chunk)
    | Err _ =>
        (Some (ReplyError StatusInternalServerError "Moderation error"),
         tr ++ moderated (pre ++ [chunk]))
    end.
Proof.
  revert tr. induction pre as [|c pre IH]; intros tr Hclean.
  - simpl. unfold mbind, M_bind. rewrite moderateContent_run, Nat.add_0_r.
    destruct (chunkVerdict env (moderationCalls tr) chunk) as [[|]|e].
    + rewrite logFlaggedContent_run. run. now rewrite <- app_assoc.
    + reflexivity.
    + reflexivity.
  - simpl. unfold mbind, M_bind. rewrite moderateContent_run.
    pose proof (Hclean 0%nat c eq_refl) as H0.
    rewrite Nat.add_0_r in H0. rewrite H0, IH.
    + rewrite moderationCalls_snoc.
      replace (S (moderationCalls tr) + List.length pre)%nat
        with (moderationCalls tr + S (List.length pre))%nat by lia.
      rewrite <- !app_assoc. reflexivity.
    + intros j c' Hj. rewrite moderationCalls_snoc.
      replace (S (moderationCalls tr) + j)%nat
        with (moderationCalls tr + S j)%nat by lia.
      apply Hclean. exact Hj.
Qed.

(** The handler, once the body is read and decoded. *)
Lemma handleChatCompletions_decoded body chatReq tr :
  UnmarshalChatReq body = Ok chatReq ->
  handleChatCompletions config env (Ok body) tr =
    match rewriteBody body (getUserContent (Messages chatReq)) with
    | Err _ =>
        (ReplyError StatusInternalServerError "Error replacing model value", tr)
    | Ok body' =>
        if inWhiteList (WhiteListModels config) (Model chatReq)
        then proxyRequest env body' tr
        else if len (moderationText config chatReq) >=? MinCharsModerate config
        then
          match moderateLoop config env chatReq
                  (splitText (moderationText config chatReq)) tr with
          | (Some reply, tr') => (reply, tr')
          | (None, tr') => proxyRequest env body' tr'
          end
        else proxyRequest env body' tr
    end.
Proof.
  intros Hreq. unfold handleChatCompletions. rewrite Hreq.
  destruct (rewriteBody body _) as [body'|e]; [|reflexivity].
  destruct (inWhiteList _ _); [reflexivity|].
  destruct (len _ >=? _); [|reflexivity].
  unfold mbind, M_bind.
  destruct (moderateLoop _ _ _ _ _) as [[reply|] tr']; reflexivity.
Qed.

Lemma inWhiteList_elem_of (models : list string) (requested : string) :
  inWhiteList models requested = true <-> requested ∈ models.
Proof.
  induction models as [|model rest IH]; simpl.
  - split; [discriminate|]. intros Hin. inversion Hin.
  - destruct (String.eqb_spec model requested) as [->|Hne].
    + split; [intros _; left|reflexivity].
    + rewrite IH. split.
      * now right.
      * intros Hin. inversion Hin; subst; [congruence|assumption].
Qed.

Lemma inWhiteList_not_elem_of (models : list string) (requested : string) :
  inWhiteList models requested = false <-> requested ∉ models.
Proof.
  rewrite <- inWhiteList_elem_of. destruct (inWhiteList models requested); split;
    congruence.
Qed.

Lemma splitText_nonempty (text : string) : splitText text <> [].
Proof.
  unfold splitText. destruct (Z.leb_spec (len text) 48000) as [Hle|Hgt].
  - discriminate.
  - destruct (splitLoop_spec text _ 0 [] ltac:(lia) eq_refl)
      as (tail & Heq & Hcat & _).
    rewrite Heq. simpl. intros ->. simpl in Hcat.
    apply (f_equal len) in Hcat. rewrite slice_len in Hcat by lia.
    change (len "") with 0 in Hcat. lia.
Qed.

(** A request that passes the allow-list test or the threshold test without
    entering the moderation loop: the rewrite has been tried before, and the
    body is forwarded only if it did not fail. *)
Lemma unmoderated_run body chatReq :
  UnmarshalChatReq body = Ok chatReq ->
  inWhiteList (WhiteListModels config) (Model chatReq) = true
  \/ len (moderationText config chatReq) < MinCharsModerate config ->
  let run := handleChatCompletions config env (Ok body) [] in
  moderationCalls run.2 = 0%nat
  /\ match rewriteBody body (getUserContent (Messages chatReq)) with
     | Ok body' => run = proxyRequest env body' [] /\ run.2 = [EvProxy body']
     | Err _ =>
         run = (ReplyError StatusInternalServerError "Error replacing model value", [])
     end.
Proof.
  intros Hreq Hskip run. subst run.
  rewrite (handleChatCompletions_decoded _ _ _ Hreq).
  destruct (rewriteBody body _) as [body'|e]; [|split; reflexivity].
  assert (Hrun : (if inWhiteList (WhiteListModels config) (Model chatReq)
                  then proxyRequest env body' []
                  else if len (moderationText config chatReq) >=? MinCharsModerate config
                  then match moderateLoop config env chatReq
                               (splitText (moderationText config chatReq)) [] with
                       | (Some reply, tr') => (reply, tr')
                       | (None, tr') => proxyRequest env body' tr'
                       end
                  else proxyRequest env body' []) = proxyRequest env body' []).
  { destruct Hskip as [-> | Hlt]; [reflexivity|].
    destruct (inWhiteList _ _); [reflexivity|].
    destruct (Z.geb_spec (len (moderationText config chatReq))
                (MinCharsModerate config)); [lia|reflexivity]. }
  rewrite Hrun, proxyRequest_trace. simpl. repeat split.
Qed.

(** C4, as the handler has it. For every request whose declared model is in
    the allow-list, no moderation call is made, whatever its content and
    whatever the moderation endpoint would answer; the body, rewritten if the
    size rule applies, is forwarded at once, unless that rewrite fails, in
    which case the answer is the 500 "Error replacing model value" and
    nothing is forwarded. *)
Theorem allowlisted_bypasses_moderation body chatReq :
  UnmarshalChatReq body = Ok chatReq ->
  Model chatReq ∈ WhiteListModels config ->
  let run := handleChatCompletions config env (Ok body) [] in
  moderationCalls run.2 = 0%nat
  /\ match rewriteBody body (getUserContent (Messages chatReq)) with
     | Ok body' => run = proxyRequest env body' [] /\ run.2 = [EvProxy body']
     | Err _ =>
         run = (ReplyError StatusInternalServerError "Error replacing model value", [])
     end.
Proof.
  intros Hreq Hin. apply unmoderated_run; [exact Hreq|].
  left. now apply inWhiteList_elem_of.
Qed.

(** C9, as the handler has it. For every request that the allow-list does not
    bypass, if the text under the threshold test is strictly shorter than the
    configured minimum, no moderation call is made; the body, rewritten if the
    size rule applies, is forwarded, unless that rewrite fails, in which case
    the answer is the 500 "Error replacing model value" and nothing is
    forwarded. *)
Theorem below_threshold_skips_moderation body chatReq :
  UnmarshalChatReq body = Ok chatReq ->
  Model chatReq ∉ WhiteListModels config ->
  len (moderationText config chatReq) < MinCharsModerate config ->
  let run := handleChatCompletions config env (Ok body) [] in
  moderationCalls run.2 = 0%nat
  /\ match rewriteBody body (getUserContent (Messages chatReq)) with
     | Ok body' => run = proxyRequest env body' [] /\ run.2 = [EvProxy body']
     | Err _ =>
         run = (ReplyError StatusInternalServerError "Error replacing model value", [])
     end.
Proof.
  intros Hreq _ Hlt. apply unmoderated_run; [exact Hreq|]. now right.
Qed.

(** A request that enters the moderation loop. *)
Lemma moderated_run body chatReq body' :
  UnmarshalChatReq body = Ok chatReq ->
  rewriteBody body (getUserContent (Messages chatReq)) = Ok body' ->
  Model chatReq ∉ WhiteListModels config ->
  MinCharsModerate config <= len (moderationText config chatReq) ->
  handleChatCompletions config env (Ok body) [] =
    match moderateLoop config env chatReq
            (splitText (moderationText config chatReq)) [] with
    | (Some reply, tr') => (reply, tr')
    | (None, tr') => proxyRequest env body' tr'
    end.
Proof.
  intros Hreq Hrw Hout Hmin.
  rewrite (handleChatCompletions_decoded _ _ _ Hreq), Hrw.
  apply inWhiteList_not_elem_of in Hout. rewrite Hout.
  destruct (Z.geb_spec (len (moderationText config chatReq))
              (MinCharsModerate config)); [reflexivity|lia].
Qed.

Lemma lookup_split (chunks : list string) (k : nat) (chunk : string) :
  chunks !! k = Some chunk ->
  chunks = take k chunks ++ chunk :: drop (S k) chunks
  /\ List.length (take k chunks) = k
  /\ take (S k) chunks = take k chunks ++ [chunk].
Proof.
  intros Hk. pose proof (lookup_lt_Some _ _ _ Hk) as Hlt. repeat split.
  - now rewrite <- (take_drop_middle _ _ _ Hk) at 1.
  - rewrite length_take. lia.
  - now apply take_S_r.
Qed.

(** The reply of [handleFlaggedContent], written out. *)
Lemma handleFlaggedContent_shape (isStream : bool) (model : string) :
  handleFlaggedContent config env isStream model =
    let response :=
      {| ID := ("chatcmpl-" ++ slice (uuid1 env) 0 24)%string;
         Object := "chat.completion.chunk";
         Created := unixNow env;
         RespModel := if decide (model = "") then "gpt-4o-mini" else model;
         SystemFingerprint := ("fp_" ++ slice (uuid2 env) 0 12)%string;
         Choices := [ {| Index := 0;
                         Delta := {[ "content" := WarningMsg config ]};
                         Logprobs := None;
                         FinishReason := "stop" |} ] |} in
    if isStream
    then ReplyStream "text/event-stream"
           [SSEvent "" (JSONOf response); SSEvent "" (Text "[DONE]")]
    else ReplyJSON 200 response.
Proof.
  unfold handleFlaggedContent, generateOpenAIStyleResponse. cbv zeta.
  destruct (String.eqb_spec model ""), (decide (model = ""));
    try congruence; reflexivity.
Qed.

(** C5. Among the chunks of the text, moderated in order: if chunk [k]
    (counted from 0) is the first one flagged, the moderation client has been
    called exactly [k + 1] times, on the chunks up to that one; the flagged
    chunk is logged, nothing is forwarded, and the reply is the rejection:
    one completion chunk with the warning message as its only choice, sent
    as a server-sent event followed by [DONE] to a streaming client and as
    the body of a 200 to any other. If every chunk is passed, the client has
    been called once per chunk and the body is forwarded. *)
Theorem moderation_short_circuits body chatReq body' :
  UnmarshalChatReq body = Ok chatReq ->
  rewriteBody body (getUserContent (Messages chatReq)) = Ok body' ->
  Model chatReq ∉ WhiteListModels config ->
  MinCharsModerate config <= len (moderationText config chatReq) ->
  let chunks := splitText (moderationText config chatReq) in
  let run := handleChatCompletions config env (Ok body) [] in
  (forall (k : nat) (chunk : string),
     chunks !! k = Some chunk ->
     (forall (j : nat) (c : string),
        (j < k)%nat -> chunks !! j = Some c -> chunkVerdict env j c = Ok false) ->
     chunkVerdict env k chunk = Ok true ->
     run = (handleFlaggedContent config env (Stream chatReq) (Model chatReq),
            moderated (take (S k) chunks) ++ flagLog env chunk)
     /\ moderationCalls run.2 = S k
     /\ List.filter isProxy run.2 = []
     /\ run.1 =
          let response :=
            {| ID := ("chatcmpl-" ++ slice (uuid1 env) 0 24)%string;
               Object := "chat.completion.chunk";
               Created := unixNow env;
               RespModel :=
                 if decide (Model chatReq = "") then "gpt-4o-mini"
                 else Model chatReq;
               SystemFingerprint := ("fp_" ++ slice (uuid2 env) 0 12)%string;
               Choices := [ {| Index := 0;
                               Delta := {[ "content" := WarningMsg config ]};
                               Logprobs := None;
                               FinishReason := "stop" |} ] |} in
          if Stream chatReq
          then ReplyStream "text/event-stream"
                 [SSEvent "" (JSONOf response); SSEvent "" (Text "[DONE]")]
          else ReplyJSON 200 response)
  /\ ((forall (j : nat) (c : string),
         chunks !! j = Some c -> chunkVerdict env j c = Ok false) ->
      run = proxyRequest env body' (moderated chunks)
      /\ run.2 = moderated chunks ++ [EvProxy body']
      /\ moderationCalls run.2 = List.length chunks).
Proof.
  intros Hreq Hrw Hout Hmin chunks run. subst run.
  rewrite (moderated_run _ _ _ Hreq Hrw Hout Hmin). fold chunks. split.
  - intros k chunk Hk Hclean Hflag.
    destruct (lookup_split _ _ _ Hk) as (Hsplit & Hlen & Htake).
    assert (Hloop : moderateLoop config env chatReq chunks [] =
              (Some (handleFlaggedContent config env (Stream chatReq) (Model chatReq)),
               moderated (take (S k) chunks) ++ flagLog env chunk)).
    { rewrite Hsplit at 1. rewrite moderateLoop_stops.
      - simpl. rewrite Hlen, Hflag, Htake. reflexivity.
      - intros j c Hj. simpl.
        pose proof (lookup_lt_Some _ _ _ Hj) as Hjk. rewrite Hlen in Hjk.
        apply Hclean; [exact Hjk|].
        rewrite lookup_take_lt in Hj by exact Hjk. exact Hj. }
    rewrite Hloop. cbn [fst snd]. split; [reflexivity|]. split; [|split].
    + rewrite moderationCalls_app, moderationCalls_moderated,
        moderationCalls_flagLog, Htake, length_app, Hlen. simpl. lia.
    + rewrite List.filter_app, noProxy_moderated, noProxy_flagLog. reflexivity.
    + apply handleFlaggedContent_shape.
  - intros Hclean. rewrite moderateLoop_all_clean by (intros j c Hj; now apply Hclean).
    simpl. rewrite proxyRequest_trace. split; [reflexivity|]. split; [reflexivity|].
    rewrite moderationCalls_app, moderationCalls_moderated.
    unfold moderationCalls. simpl. lia.
Qed.

(** The loop only adds to the trace, and what it adds starts with the call
    for the first chunk. *)
Lemma moderateLoop_extends chatReq chunks : forall tr,
  exists ext, (moderateLoop config env chatReq chunks tr).2 = tr ++ ext.
Proof.
  induction chunks as [|c chunks IH]; intros tr; simpl.
  - exists []. simpl. now rewrite app_nil_r.
  - unfold mbind, M_bind. rewrite moderateContent_run.
    destruct (chunkVerdict env (moderationCalls tr) c) as [[|]|e].
    + rewrite logFlaggedContent_run. simpl. rewrite <- app_assoc. eauto.
    + destruct (IH (tr ++ [EvModerate (moderationInput c)])) as [ext Hext].
      rewrite Hext, <- app_assoc. eauto.
    + simpl. eauto.
Qed.

Lemma moderateLoop_head_trace chatReq first rest tr :
  exists ext,
    (moderateLoop config env chatReq (first :: rest) tr).2 =
      tr ++ EvModerate (moderationInput first) :: ext.
Proof.
  simpl. unfold mbind, M_bind. rewrite moderateContent_run.
  destruct (chunkVerdict env (moderationCalls tr) first) as [[|]|e].
  - rewrite logFlaggedContent_run. simpl. rewrite <- app_assoc. simpl. eauto.
  - destruct (moderateLoop_extends chatReq rest
                (tr ++ [EvModerate (moderationInput first)])) as [ext Hext].
    rewrite Hext, <- app_assoc. simpl. eauto.
  - simpl. exists []. reflexivity.
Qed.

(** C6. The rejection has exactly one choice, with index 0, a delta holding
    the configured warning message under "content" and nothing else, no
    logprobs and finish reason "stop"; its model is the requested one, or
    "gpt-4o-mini" when the request names none. A streaming client gets it as
    one server-sent event followed by the event [DONE], after which the
    stream ends; any other client gets it as the JSON body of a 200. It is
    the reply of every request in which a chunk is flagged. *)
Theorem rejection_response_shape (isStream : bool) (model : string) :
  let response := generateOpenAIStyleResponse env (WarningMsg config) model in
  Choices response =
    [ {| Index := 0;
         Delta := {[ "content" := WarningMsg config ]};
         Logprobs := None;
         FinishReason := "stop" |} ]
  /\ RespModel response = (if decide (model = "") then "gpt-4o-mini" else model)
  /\ handleFlaggedContent config env isStream model =
       (if isStream
        then ReplyStream "text/event-stream"
               [SSEvent "" (JSONOf response); SSEvent "" (Text "[DONE]")]
        else ReplyJSON 200 response)
  /\ (forall chatReq chunks tr content reply tr',
        moderateLoop config env chatReq chunks tr = (Some reply, tr') ->
        EvFlagged content ∈ tr' -> EvFlagged content ∉ tr ->
        reply = handleFlaggedContent config env (Stream chatReq) (Model chatReq)).
Proof.
  split; [reflexivity|]. split.
  { simpl. destruct (String.eqb_spec model ""), (decide (model = ""));
      congruence. }
  split; [reflexivity|].
  intros chatReq chunks. induction chunks as [|c chunks IH];
    intros tr content reply tr' Hrun Hin Hnotin; simpl in Hrun.
  - discriminate.
  - unfold mbind, M_bind in Hrun. rewrite moderateContent_run in Hrun.
    destruct (chunkVerdict env (moderationCalls tr) c) as [[|]|e].
    + rewrite logFlaggedContent_run in Hrun. now injection Hrun as <- <-.
    + eapply IH; [exact Hrun|exact Hin|].
      rewrite elem_of_app. intros [H|H]; [now apply Hnotin|].
      apply list_elem_of_singleton in H. discriminate.
    + injection Hrun as <- <-. exfalso. apply Hnotin.
      rewrite elem_of_app in Hin. destruct Hin as [H|H]; [exact H|].
      apply list_elem_of_singleton in H. discriminate.
Qed.

(** The rewritten body is the encoding of a map that has the keys of the
    decoded one and, under every key other than "model", the value the
    decoded one has there; under "model" it has the new value if the decoded
    one has a string there, and the decoded value otherwise. *)
Lemma replaceModelValue_map_frame (input output : Body) (newModelValue : string)
    (data : gmap string gvalue) :
  UnmarshalMap input = Ok data ->
  replaceModelValue input newModelValue = Ok output ->
  exists data' : gmap string gvalue,
    MarshalMap data' = Ok output
    /\ (forall k : string, k <> "model" -> data' !! k = data !! k)
    /\ dom data' = dom data
    /\ data' !! "model" =
         match data !! "model" with
         | Some (GString _) => Some (GString newModelValue)
         | other => other
         end.
Proof.
  intros Hin Hout. unfold replaceModelValue in Hout. rewrite Hin in Hout.
  match type of Hout with
  | context [MarshalMap ?d] =>
      exists d; destruct (MarshalMap d) as [out|e] eqn:Hm; [|discriminate]
  end.
  assert (out = output) as -> by congruence. clear Hout.
  split; [reflexivity|]. clear Hm.
  destruct (data !! "model") as [model|] eqn:Hmodel; [|repeat split; auto].
  destruct model as [ | b | f | s | l | m ]; try solve [repeat split; auto].
  split; [|split].
  - intros k Hk. now rewrite lookup_insert_ne.
  - apply dom_insert_lookup_L. now rewrite Hmodel.
  - now rewrite lookup_insert_eq.
Qed.

(** C8. The moderation client returns an error exactly when no response was
    obtained, or the response has a status other than 200, or its body does
    not decode into a [ModerationResponse]. When the call for a chunk returns
    an error, the chunks before it having been passed, the handler answers
    500 "Moderation error": the failed call is not repeated, no later chunk is
    moderated, nothing is forwarded and no rejection is produced. *)
Theorem moderation_error_aborts :
  (forall (content : string) (tr : list (Event Body)),
     let o := moderationAPI env (moderationCalls tr) (moderationInput content) in
     isErr (moderateContent env content tr).1 = true
     <-> transportFailure o \/ nonSuccessStatus o \/ unparsableBody o)
  /\ (forall (body body' : Body) (chatReq : OpenAIChatReq) (k : nat)
        (chunk e : string),
        UnmarshalChatReq body = Ok chatReq ->
        rewriteBody body (getUserContent (Messages chatReq)) = Ok body' ->
        Model chatReq ∉ WhiteListModels config ->
        MinCharsModerate config <= len (moderationText config chatReq) ->
        let chunks := splitText (moderationText config chatReq) in
        chunks !! k = Some chunk ->
        (forall (j : nat) (c : string),
           (j < k)%nat -> chunks !! j = Some c -> chunkVerdict env j c = Ok false) ->
        chunkVerdict env k chunk = Err e ->
        let run := handleChatCompletions config env (Ok body) [] in
        run = (ReplyError 500 "Moderation error", moderated (take (S k) chunks))
        /\ moderationCalls run.2 = S k
        /\ List.filter isProxy run.2 = []
        /\ List.filter isFlagged run.2 = []).
Proof.
  split.
  - intros content tr o. rewrite moderateContent_run. simpl.
    unfold chunkVerdict. fold o. unfold verdict.
    destruct o as [e|e|st [resp|e]]; simpl.
    + split; auto.
    + split; auto.
    + destruct (Z.eqb_spec st 200); simpl.
      * split; [discriminate|]. intros [[]|[H|[]]]. contradiction.
      * split; auto.
    + destruct (Z.eqb_spec st 200); simpl; split; auto.
  - intros body body' chatReq k chunk e Hreq Hrw Hout Hmin chunks Hk Hclean Herr run.
    subst run. rewrite (moderated_run _ _ _ Hreq Hrw Hout Hmin). fold chunks.
    destruct (lookup_split _ _ _ Hk) as (Hsplit & Hlen & Htake).
    assert (Hloop : moderateLoop config env chatReq chunks [] =
              (Some (ReplyError 500 "Moderation error"),
               moderated (take (S k) chunks))).
    { rewrite Hsplit at 1. rewrite moderateLoop_stops.
      - simpl. rewrite Hlen, Herr, Htake. reflexivity.
      - intros j c Hj. simpl.
        pose proof (lookup_lt_Some _ _ _ Hj) as Hjk. rewrite Hlen in Hjk.
        apply Hclean; [exact Hjk|].
        rewrite lookup_take_lt in Hj by exact Hjk. exact Hj. }
    rewrite Hloop. simpl. split; [reflexivity|]. split; [|split].
    + rewrite moderationCalls_moderated, Htake, length_app, Hlen. simpl. lia.
    + apply noProxy_moderated.
    + apply noFlagged_moderated.
Qed.

(** C10, as the handler has it. The allow-list is tested against the model
    of the decoded request, whatever model the body to be forwarded names
    after the rewrite. A request whose declared model is in the list is never
    moderated. A request whose declared model is not in the list takes the
    threshold test, and when its text is not shorter than the configured
    minimum the first chunk of that text is moderated. *)
Theorem allowlist_tests_declared_model body chatReq :
  UnmarshalChatReq body = Ok chatReq ->
  let run := handleChatCompletions config env (Ok body) [] in
  (Model chatReq ∈ WhiteListModels config -> moderationCalls run.2 = 0%nat)
  /\ (Model chatReq ∉ WhiteListModels config ->
      forall body' : Body,
        rewriteBody body (getUserContent (Messages chatReq)) = Ok body' ->
        (len (moderationText config chatReq) < MinCharsModerate config ->
         moderationCalls run.2 = 0%nat)
        /\ (MinCharsModerate config <= len (moderationText config chatReq) ->
            exists (first : string) (rest : list string) (tr' : list (Event Body)),
              splitText (moderationText config chatReq) = first :: rest
              /\ run.2 = EvModerate (moderationInput first) :: tr')).
Proof.
  intros Hreq run. split.
  - intros Hin. apply inWhiteList_elem_of in Hin.
    now destruct (unmoderated_run body chatReq Hreq (or_introl Hin)).
  - intros Hout body' Hrw. split.
    + intros Hlt.
      now destruct (unmoderated_run body chatReq Hreq (or_intror Hlt)).
    + intros Hmin. subst run. rewrite (moderated_run _ _ _ Hreq Hrw Hout Hmin).
      destruct (splitText (moderationText config chatReq)) as [|first rest] eqn:Hs.
      { now apply splitText_nonempty in Hs. }
      destruct (moderateLoop_head_trace chatReq first rest []) as [ext Hext].
      destruct (moderateLoop config env chatReq (first :: rest) [])
        as [[reply|] tr'] eqn:Hloop; simpl in Hext; subst tr'.
      * exists first, rest, ext. split; reflexivity.
      * exists first, rest, (ext ++ [EvProxy body']).
        split; [reflexivity|]. now rewrite proxyRequest_trace.
Qed.

End GatewayProperties.

(** ** The gateway on concrete requests *)

Lemma len_repeatByte (c : ascii) (n : nat) : len (repeatByte c n) = Z.of_nat n.
Proof.
  unfold len. induction n as [|n IH]; simpl; [reflexivity|].
  f_equal. f_equal. apply Nat2Z.inj. exact IH.
Qed.

(** C1 at a request without a "user" message, in last-message mode: the text
    under the threshold test is the content of the "system" message, not the
    empty text, and it is sent to the moderation endpoint. *)
Theorem last_message_mode_without_user_message :
  let config := configWith 1 false [] in
  let body := requestJSON "gpt-4" [("system", "be nice")] false [] in
  let chatReq :=
    {| Model := "gpt-4";
       Messages := [ {| Role := "system"; Content := "be nice" |} ];
       Stream := false |} in
  UnmarshalChatReq body = Ok chatReq
  /\ lastUser (Messages chatReq) = None
  /\ moderationText config chatReq = "be nice"
  /\ (handleChatCompletions config (envWith (fun _ => unflagged)) (Ok body) []).2
     = [EvModerate (moderationInput "be nice"); EvProxy body].
Proof. repeat split. Qed.

(** C2 at a full-context text of exactly 102400 bytes: no model is chosen,
    and the body is forwarded as it came. *)
Theorem no_rewrite_at_100_KiB :
  let content := repeatByte "a" (Z.to_nat 102400) in
  let body := requestJSON "gpt-4" [("user", content)] false [] in
  len content = 102400
  /\ chooseReplaceModel content = ""
  /\ rewriteBody body content = Ok body
  /\ (handleChatCompletions (configWith 0 true ["gpt-4"])
        (envWith (fun _ => unflagged)) (Ok body) []).2 = [EvProxy body].
Proof.
  assert (Hlen : len (repeatByte "a" (Z.to_nat 102400)) = 102400)
    by (now rewrite len_repeatByte).
  revert Hlen. generalize (repeatByte "a" (Z.to_nat 102400)). intros s Hs.
  assert (Hnone : chooseReplaceModel s = "").
  { destruct (chooseReplaceModel_cases s) as (_ & _ & Hgap & _). exact (Hgap Hs). }
  cbv zeta. split; [exact Hs|]. split; [exact Hnone|].
  assert (Hrw : rewriteBody (requestJSON "gpt-4" [("user", s)] false []) s
                = Ok (requestJSON "gpt-4" [("user", s)] false [])).
  { unfold rewriteBody. rewrite Hnone. reflexivity. }
  split; [exact Hrw|].
  assert (Hreq : UnmarshalChatReq (requestJSON "gpt-4" [("user", s)] false [])
                 = Ok {| Model := "gpt-4";
                         Messages := [ {| Role := "user"; Content := s |} ];
                         Stream := false |}) by reflexivity.
  rewrite (handleChatCompletions_decoded _ _ _ _ [] Hreq).
  change (getUserContent _) with s. rewrite Hrw. reflexivity.
Qed.

(** Replaces the bytes [repeatByte "a" n] of a goal by a string [s] of which
    only the length is known. *)
Ltac abstract_bytes n s Hs :=
  let H := fresh in
  assert (H : len (repeatByte "a" (Z.to_nat n)) = n)
    by (rewrite len_repeatByte; reflexivity);
  revert H; generalize (repeatByte "a" (Z.to_nat n)); intros s Hs.

(** Runs the handler up to the decoded request. *)
Ltac decode_request :=
  match goal with
  | |- context [handleChatCompletions ?c ?e (Ok ?b) ?tr] =>
      let r := eval cbv in (UnmarshalChatReq b) in
      match r with
      | Ok ?q =>
          let H := fresh in
          assert (H : UnmarshalChatReq b = Ok q) by reflexivity;
          rewrite (handleChatCompletions_decoded c e b q tr H); clear H
      end
  end.

Lemma chooseReplaceModel_mid (s : string) :
  10240 < len s < 102400 -> chooseReplaceModel s = "glm-4-air".
Proof. apply chooseReplaceModel_cases. Qed.

(** C4 without the proviso on the rewrite does not hold: a request whose
    model is in the allow-list, with more than 10 KiB of content and a member
    ["seed": 1e999] that [OpenAIChatReq] skips and [float64] cannot hold, is
    answered 500 and not forwarded. *)
Lemma allowlisted_request_not_forwarded :
  let config := configWith 0 true ["gpt-4"] in
  let content := repeatByte "a" (Z.to_nat 10241) in
  let body :=
    requestJSON "gpt-4" [("user", content)] false
      [("seed", JNumber {| mantissa := 1; exponent := 999 |})] in
  let chatReq :=
    {| Model := "gpt-4";
       Messages := [ {| Role := "user"; Content := content |} ];
       Stream := false |} in
  let run := handleChatCompletions config (envWith (fun _ => unflagged)) (Ok body) [] in
  UnmarshalChatReq body = Ok chatReq
  /\ Model chatReq ∈ WhiteListModels config
  /\ run = (ReplyError 500 "Error replacing model value", [])
  /\ ~ (exists body', EvProxy body' ∈ run.2).
Proof.
  abstract_bytes 10241 s Hs. cbv zeta.
  assert (Hrun : handleChatCompletions (configWith 0 true ["gpt-4"])
                   (envWith (fun _ => unflagged))
                   (Ok (requestJSON "gpt-4" [("user", s)] false
                          [("seed", JNumber {| mantissa := 1; exponent := 999 |})])) []
                 = (ReplyError 500 "Error replacing model value", [])).
  { decode_request.
    change (getUserContent _) with s. unfold rewriteBody.
    rewrite (chooseReplaceModel_mid s) by lia. reflexivity. }
  split; [reflexivity|]. split; [left|]. split; [exact Hrun|].
  rewrite Hrun. intros [body' Hin]. inversion Hin.
Qed.

(** C4 on a request whose model is in the allow-list, with a moderation
    endpoint that cannot be reached: no call, and the body is forwarded. *)
Lemma allowlisted_bypasses_moderation_witness :
  let config := configWith 5 false ["gpt-4"] in
  let env := envWith (fun _ => DoFails "connection refused") in
  let body := requestJSON "gpt-4" [("user", "this is flagged content")] false [] in
  let chatReq :=
    {| Model := "gpt-4";
       Messages := [ {| Role := "user"; Content := "this is flagged content" |} ];
       Stream := false |} in
  let run := handleChatCompletions config env (Ok body) [] in
  UnmarshalChatReq body = Ok chatReq
  /\ Model chatReq ∈ WhiteListModels config
  /\ moderationCalls run.2 = 0%nat
  /\ run.2 = [EvProxy body].
Proof.
  intros config env body chatReq run.
  assert (Hreq : UnmarshalChatReq body = Ok chatReq) by reflexivity.
  assert (Hin : Model chatReq ∈ WhiteListModels config) by left.
  split; [exact Hreq|]. split; [exact Hin|].
  destruct (allowlisted_bypasses_moderation config env body chatReq Hreq Hin)
    as [Hcalls Hfwd].
  split; [exact Hcalls|]. exact (proj2 Hfwd).
Defined.

(** C9 without the proviso on the rewrite does not hold: a request outside
    the allow-list whose last "user" message is shorter than the minimum, with
    more than 10 KiB of "system" context and a member ["seed": 1e999], is
    answered 500 and not forwarded. *)
Lemma below_threshold_request_not_forwarded :
  let config := configWith 5 false [] in
  let context := repeatByte "a" (Z.to_nat 10241) in
  let body :=
    requestJSON "gpt-4" [("system", context); ("user", "hi")] false
      [("seed", JNumber {| mantissa := 1; exponent := 999 |})] in
  let chatReq :=
    {| Model := "gpt-4";
       Messages := [ {| Role := "system"; Content := context |};
                     {| Role := "user"; Content := "hi" |} ];
       Stream := false |} in
  let run := handleChatCompletions config (envWith (fun _ => unflagged)) (Ok body) [] in
  UnmarshalChatReq body = Ok chatReq
  /\ (Model chatReq ∉ WhiteListModels config)
  /\ len (moderationText config chatReq) < MinCharsModerate config
  /\ run = (ReplyError 500 "Error replacing model value", [])
  /\ ~ (exists body', EvProxy body' ∈ run.2).
Proof.
  abstract_bytes 10241 s Hs. cbv zeta.
  assert (Hrun : handleChatCompletions (configWith 5 false [])
                   (envWith (fun _ => unflagged))
                   (Ok (requestJSON "gpt-4" [("system", s); ("user", "hi")] false
                          [("seed", JNumber {| mantissa := 1; exponent := 999 |})])) []
                 = (ReplyError 500 "Error replacing model value", [])).
  { decode_request.
    change (getUserContent _) with (s ++ " hi")%string. unfold rewriteBody.
    rewrite (chooseReplaceModel_mid (s ++ " hi")%string)
      by (rewrite len_app; change (len " hi") with 3; lia).
    reflexivity. }
  split; [reflexivity|]. split; [apply not_elem_of_nil|].
  split; [reflexivity|]. split; [exact Hrun|].
  rewrite Hrun. intros [body' Hin]. inversion Hin.
Qed.

(** C9 on the request [{model: "x", messages: [{user, "hi"}]}] with a
    minimum of 5 in last-message mode: no call, and the body is forwarded as
    it came. *)
Lemma below_threshold_skips_moderation_witness :
  let config := configWith 5 false [] in
  let env := envWith (fun _ => flagged) in
  let body := requestJSON "x" [("user", "hi")] false [] in
  let chatReq :=
    {| Model := "x";
       Messages := [ {| Role := "user"; Content := "hi" |} ];
       Stream := false |} in
  let run := handleChatCompletions config env (Ok body) [] in
  UnmarshalChatReq body = Ok chatReq
  /\ (Model chatReq ∉ WhiteListModels config)
  /\ len (moderationText config chatReq) < MinCharsModerate config
  /\ moderationCalls run.2 = 0%nat
  /\ run.2 = [EvProxy body].
Proof.
  intros config env body chatReq run.
  assert (Hreq : UnmarshalChatReq body = Ok chatReq) by reflexivity.
  assert (Hout : Model chatReq ∉ WhiteListModels config) by apply not_elem_of_nil.
  assert (Hlt : len (moderationText config chatReq) < MinCharsModerate config)
    by reflexivity.
  split; [exact Hreq|]. split; [exact Hout|]. split; [exact Hlt|].
  destruct (below_threshold_skips_moderation config env body chatReq Hreq Hout Hlt)
    as [Hcalls Hfwd].
  split; [exact Hcalls|]. exact (proj2 Hfwd).
Defined.

Lemma splitLoop_full (text : string) (i : Z) (result : list string) :
  i + 48000 <= len text ->
  splitLoop text i result =
    splitLoop text (i + 48000) (result ++ [slice text i (i + 48000)]).
Proof.
  intros Hi. rewrite splitLoop_step.
  destruct (decide (i < len text)); [|lia].
  destruct (Z.gtb_spec (i + 48000) (len text)); [lia|reflexivity].
Qed.

Lemma splitLoop_last (text : string) (i : Z) (result : list string) :
  i < len text <= i + 48000 ->
  splitLoop text i result = result ++ [slice text i (len text)].
Proof.
  intros Hi. rewrite splitLoop_step.
  destruct (decide (i < len text)); [|lia].
  rewrite splitLoop_step.
  destruct (decide (i + 48000 < len text)); [lia|].
  destruct (Z.gtb_spec (i + 48000) (len text)); [reflexivity|].
  do 2 f_equal. f_equal. lia.
Qed.

(** A text of more than 96000 and at most 144000 bytes has three chunks. *)
Lemma splitText_three (text : string) :
  96000 < len text <= 144000 ->
  splitText text =
    [slice text 0 48000; slice text 48000 96000; slice text 96000 (len text)].
Proof.
  intros Hlen. unfold splitText.
  destruct (Z.leb_spec (len text) 48000); [lia|].
  rewrite (splitLoop_full text 0) by lia.
  rewrite (splitLoop_full text (0 + 48000)) by lia.
  rewrite (splitLoop_last text (0 + 48000 + 48000)) by lia.
  reflexivity.
Qed.

(** C5 on a streaming request with 100000 bytes of content, in three chunks:
    when the endpoint flags the second call, two calls are made and the
    request is rejected; when it flags none, three calls are made and the
    body is forwarded. *)
Lemma moderation_short_circuits_witness :
  let config := configWith 0 true [] in
  let text := repeatByte "a" (Z.to_nat 100000) in
  let body := requestJSON "gpt-4" [("user", text)] true [] in
  let chatReq :=
    {| Model := "gpt-4";
       Messages := [ {| Role := "user"; Content := text |} ];
       Stream := true |} in
  let chunks :=
    [slice text 0 48000; slice text 48000 96000; slice text 96000 (len text)] in
  let secondFlagged := envWith (fun n => if (n =? 1)%nat then flagged else unflagged) in
  let noneFlagged := envWith (fun _ => unflagged) in
  splitText (moderationText config chatReq) = chunks
  /\ (let run := handleChatCompletions config secondFlagged (Ok body) [] in
      run.1 = handleFlaggedContent config secondFlagged true "gpt-4"
      /\ run.2 = moderated (take 2 chunks) ++ flagLog secondFlagged (slice text 48000 96000)
      /\ moderationCalls run.2 = 2%nat
      /\ List.filter isProxy run.2 = []
      /\ run.1 =
           ReplyStream "text/event-stream"
             [SSEvent ""
                (JSONOf
                   {| ID := "chatcmpl-123e4567-e89b-12d3-a456-";
                      Object := "chat.completion.chunk";
                      Created := 1700000000;
                      RespModel := "gpt-4";
                      SystemFingerprint := "fp_00112233-445";
                      Choices := [ {| Index := 0;
                                      Delta := {[ "content" := "content rejected" ]};
                                      Logprobs := None;
                                      FinishReason := "stop" |} ] |});
              SSEvent "" (Text "[DONE]")])
  /\ (let run := handleChatCompletions config noneFlagged (Ok body) [] in
      moderationCalls run.2 = 3%nat
      /\ exists body', run.2 = moderated chunks ++ [EvProxy body']).
Proof.
  abstract_bytes 100000 s Hs.
  intros config text body chatReq chunks secondFlagged noneFlagged.
  subst text.
  assert (Hreq : UnmarshalChatReq body = Ok chatReq) by reflexivity.
  assert (Htext : moderationText config chatReq = s) by reflexivity.
  assert (Hchunks : splitText (moderationText config chatReq) = chunks)
    by (rewrite Htext; apply splitText_three; lia).
  assert (Hrw : exists body', rewriteBody body (getUserContent (Messages chatReq)) = Ok body').
  { change (getUserContent _) with s. unfold rewriteBody.
    rewrite (chooseReplaceModel_mid s) by lia. eexists. reflexivity. }
  destruct Hrw as [body' Hrw].
  assert (Hout : Model chatReq ∉ WhiteListModels config) by apply not_elem_of_nil.
  assert (Hmin : MinCharsModerate config <= len (moderationText config chatReq))
    by (rewrite Htext, Hs; discriminate).
  split; [exact Hchunks|]. split.
  - destruct (moderation_short_circuits config secondFlagged body chatReq body'
                Hreq Hrw Hout Hmin) as [Hstop _].
    rewrite Hchunks in Hstop.
    destruct (Hstop 1%nat (slice s 48000 96000) eq_refl)
      as (Hrun & Hcalls & Hproxy & Hreply).
    + intros [|j] c Hj Hc; [reflexivity|lia].
    + reflexivity.
    + cbv zeta. split; [rewrite Hrun; reflexivity|].
      split; [rewrite Hrun; reflexivity|]. split; [exact Hcalls|].
      split; [exact Hproxy|]. exact Hreply.
  - destruct (moderation_short_circuits config noneFlagged body chatReq body'
                Hreq Hrw Hout Hmin) as [_ Hpass].
    rewrite Hchunks in Hpass.
    destruct Hpass as (_ & Htrace & Hcalls).
    + intros j c Hj. reflexivity.
    + cbv zeta. split; [exact Hcalls|]. exists body'. exact Htrace.
Defined.

(** ** The rewrite on the reference codec *)

Lemma insertMember_perm (kv : string * json) (members : list (string * json)) :
  insertMember kv members ≡ₚ kv :: members.
Proof.
  induction members as [|kv' rest IH]; simpl; [reflexivity|].
  destruct (String.leb kv.1 kv'.1); [reflexivity|].
  rewrite IH. apply Permutation_swap.
Qed.

Lemma sortMembers_perm (members : list (string * json)) :
  sortMembers members ≡ₚ members.
Proof.
  induction members as [|kv rest IH]; simpl; [reflexivity|].
  now rewrite insertMember_perm, IH.
Qed.

Lemma field_None (k : string) (members : list (string * json)) :
  field k members = None <-> k ∉ members.*1.
Proof.
  induction members as [|[k' v] rest IH]; simpl.
  - split; [intros _; apply not_elem_of_nil|reflexivity].
  - rewrite not_elem_of_cons, <- IH.
    destruct (field k rest) as [v'|]; [split; [discriminate|intros [_ H]; discriminate]|].
    destruct (String.eqb_spec k k') as [->|Hne].
    + split; [discriminate|intros [H _]; now contradict H].
    + split; [now split|reflexivity].
Qed.

Lemma field_Some (k : string) (v : json) (members : list (string * json)) :
  NoDup members.*1 -> field k members = Some v <-> (k, v) ∈ members.
Proof.
  induction members as [|[k' v'] rest IH]; simpl; intros Hnd.
  - split; [discriminate|intros H; now apply elem_of_nil in H].
  - apply NoDup_cons in Hnd as [Hk' Hnd]. rewrite elem_of_cons, <- (IH Hnd).
    destruct (field k rest) as [w|] eqn:Hw.
    + split; [intros H; now right|]. intros [H|H]; [|exact H].
      injection H as -> ->. exfalso.
      assert (field k' rest = None) as Hn by now apply field_None.
      congruence.
    + destruct (String.eqb_spec k k') as [->|Hne].
      * split; [intros H; injection H as ->; now left|].
        intros [H|H]; [now injection H as ->|discriminate].
      * split; [discriminate|]. intros [H|H]; [|discriminate].
        injection H as -> ->. now contradict Hne.
Qed.

Lemma field_encoded (k : string) (data : gmap string gvalue) :
  field k (sortMembers (map_to_list (encodeValue <$> data)))
  = encodeValue <$> data !! k.
Proof.
  set (l := sortMembers (map_to_list (encodeValue <$> data))).
  assert (Hp : l ≡ₚ map_to_list (encodeValue <$> data)) by apply sortMembers_perm.
  assert (Hnd : NoDup l.*1).
  { rewrite Hp. apply NoDup_fst_map_to_list. }
  destruct (data !! k) as [g|] eqn:Hk; simpl.
  - apply field_Some; [exact Hnd|]. rewrite Hp, elem_of_map_to_list.
    now rewrite lookup_fmap, Hk.
  - apply field_None. rewrite Hp. intros Hin.
    apply list_elem_of_fmap in Hin as ([k' v] & -> & Hin).
    apply elem_of_map_to_list in Hin. cbn [fst] in *.
    rewrite lookup_fmap, Hk in Hin. discriminate.
Qed.

Lemma NoDup_encoded (data : gmap string gvalue) :
  NoDup (sortMembers (map_to_list (encodeValue <$> data))).*1.
Proof. rewrite sortMembers_perm. apply NoDup_fst_map_to_list. Qed.

(** What [decodeValue] makes of the members of an object. *)
Lemma decodeMembers_lookup (members : list (string * json)) :
  forall (m data : gmap string gvalue),
    (fix decodeMembers (l : list (string * json)) (m : gmap string gvalue)
       : Result (gmap string gvalue) :=
       match l with
       | [] => Ok m
       | (k, x) :: rest =>
           match decodeValue x with
           | Ok v => decodeMembers rest (<[k := v]> m)
           | Err e => Err e
           end
       end) members m = Ok data ->
    forall k : string,
      match field k members with
      | Some v => exists g, decodeValue v = Ok g /\ data !! k = Some g
      | None => data !! k = m !! k
      end.
Proof.
  induction members as [|[k' x] rest IH]; intros m data H k.
  - simpl. now injection H as ->.
  - cbn [field]. destruct (decodeValue x) as [g|e] eqn:Hx; [|discriminate].
    specialize (IH _ _ H k).
    destruct (field k rest) as [v'|]; [exact IH|].
    destruct (String.eqb_spec k k') as [->|Hne].
    + exists g. split; [exact Hx|]. now rewrite IH, lookup_insert_eq.
    + rewrite IH. now rewrite lookup_insert_ne by congruence.
Qed.

Lemma decodeMap_lookup (members : list (string * json)) (data : gmap string gvalue) :
  decodeMap (JObject members) = Ok data ->
  forall k : string,
    match field k members with
    | Some v => exists g, decodeValue v = Ok g /\ data !! k = Some g
    | None => data !! k = None
    end.
Proof.
  intros H k. unfold decodeMap in H. cbn [decodeValue] in H.
  match type of H with
  | context [match ?d members ∅ with _ => _ end] =>
      destruct (d members ∅) as [m|e] eqn:Hm; [|discriminate]
  end.
  injection H as <-.
  pose proof (decodeMembers_lookup members ∅ m Hm k) as Hk.
  destruct (field k members); [exact Hk|]. now rewrite Hk, lookup_empty.
Qed.

Lemma decodeMembers_fails (members : list (string * json)) :
  forall m : gmap string gvalue,
    isErr ((fix decodeMembers (l : list (string * json)) (m : gmap string gvalue)
              : Result (gmap string gvalue) :=
              match l with
              | [] => Ok m
              | (k, x) :: rest =>
                  match decodeValue x with
                  | Ok v => decodeMembers rest (<[k := v]> m)
                  | Err e => Err e
                  end
              end) members m) = true
    <-> Exists (fun kv => isErr (decodeValue kv.2) = true) members.
Proof.
  induction members as [|[k x] rest IH]; intros m.
  - simpl. split; [discriminate|intros H; inversion H].
  - rewrite Exists_cons. cbn [snd].
    destruct (decodeValue x) as [g|e] eqn:Hx.
    + rewrite IH. simpl. split; [now right|]. intros [H|H]; [discriminate|exact H].
    + simpl. split; [now left|reflexivity].
Qed.

Lemma replaceModelValue_fails (members : list (string * json)) (newModelValue : string) :
  isErr (replaceModelValue (JObject members) newModelValue) = true
  <-> Exists (fun kv => isErr (decodeValue kv.2) = true) members.
Proof.
  rewrite <- (decodeMembers_fails members ∅).
  unfold replaceModelValue, UnmarshalMap, MarshalMap, refJSON, decodeMap, encodeMap.
  cbn [decodeValue].
  match goal with
  | |- context [match ?d members ∅ with _ => _ end] =>
      destruct (d members ∅) as [m|e]
  end; simpl; reflexivity.
Qed.

Lemma decodeValue_GString (v : json) (g : gvalue) :
  decodeValue v = Ok g ->
  match g with GString s => v = JString s | _ => True end.
Proof.
  intros Hg.
  destruct v as [ | b | n | s | l | l ]; cbn [decodeValue] in Hg;
    repeat match type of Hg with
           | context [match ?x with _ => _ end] => destruct x; try discriminate
           end;
    now injection Hg as <-.
Qed.

(** Induction on a document, with the property at hand for every element of
    an array and every member of an object. *)
Lemma json_nested_ind (P : json -> Prop) :
  P JNull ->
  (forall b, P (JBool b)) ->
  (forall n, P (JNumber n)) ->
  (forall s, P (JString s)) ->
  (forall elems, Forall P elems -> P (JArray elems)) ->
  (forall members, Forall (fun kv => P kv.2) members -> P (JObject members)) ->
  forall j, P j.
Proof.
  intros Hnull Hbool Hnumber Hstring Harray Hobject.
  fix IH 1. intros [ | b | n | s | elems | members ].
  - exact Hnull.
  - apply Hbool.
  - apply Hnumber.
  - apply Hstring.
  - apply Harray. induction elems as [|x elems IHelems]; constructor.
    + apply IH.
    + exact IHelems.
  - apply Hobject. induction members as [|[k x] members IHmembers]; constructor.
    + apply IH.
    + exact IHmembers.
Qed.

Lemma sameNumber_refl (n : Number) : sameNumber n n = true.
Proof. unfold sameNumber. apply Z.eqb_refl. Qed.

Lemma field_map (f : json -> json) (k : string) (members : list (string * json)) :
  field k (List.map (fun kv => (kv.1, f kv.2)) members) = f <$> field k members.
Proof.
  induction members as [|[k' v] rest IH]; [reflexivity|].
  cbn [List.map field fst snd]. rewrite IH.
  destruct (field k rest); [reflexivity|].
  now destruct (k =? k')%string.
Qed.

(** Objects hold the same value when they agree under every key. *)
Lemma sameValue_objects (la lb : list (string * json)) :
  (forall k va, field k la = Some va ->
     exists vb, field k lb = Some vb /\ sameValue va vb = true) ->
  (forall k, field k la = None -> field k lb = None) ->
  sameValue (JObject la) (JObject lb) = true.
Proof.
  intros Hsame Hkeys. cbn [sameValue]. apply andb_true_intro. split.
  - clear Hkeys. induction la as [|[k va] rest IH]; [reflexivity|].
    assert (Hrest : forall k0 va0, field k0 rest = Some va0 ->
              exists vb, field k0 lb = Some vb /\ sameValue va0 vb = true).
    { intros k0 va0 H0. apply Hsame. cbn [field]. now rewrite H0. }
    destruct (field k rest) eqn:Hk; [now apply IH|].
    destruct (Hsame k va) as (vb & -> & ->).
    { cbn [field]. now rewrite Hk, String.eqb_refl. }
    now apply IH.
  - apply forallb_forall. intros [k vb] Hin. cbn [fst].
    destruct (field k la) eqn:Hk; [reflexivity|].
    apply Hkeys in Hk. apply field_None in Hk. exfalso. apply Hk.
    apply list_elem_of_In in Hin. apply list_elem_of_fmap. now exists (k, vb).
Qed.

(** What [decodeValue] makes of the elements of an array. *)
Lemma decodeElems_cons (x : json) (rest : list json) (vs : list gvalue) :
  (fix decodeElems (l : list json) : Result (list gvalue) :=
     match l with
     | [] => Ok []
     | x :: rest =>
         match decodeValue x, decodeElems rest with
         | Ok v, Ok vs => Ok (v :: vs)
         | Err e, _ => Err e
         | _, Err e => Err e
         end
     end) (x :: rest) = Ok vs ->
  exists v vs',
    vs = v :: vs'
    /\ decodeValue x = Ok v
    /\ (fix decodeElems (l : list json) : Result (list gvalue) :=
          match l with
          | [] => Ok []
          | x :: rest =>
              match decodeValue x, decodeElems rest with
              | Ok v, Ok vs => Ok (v :: vs)
              | Err e, _ => Err e
              | _, Err e => Err e
              end
          end) rest = Ok vs'.
Proof.
  intros H. cbn beta iota fix in H. destruct (decodeValue x) as [v|e] eqn:Hx.
  - match type of H with
    | context [match ?d rest with _ => _ end] =>
        destruct (d rest) as [vs'|e] eqn:Hrest
    end.
    + exists v, vs'. injection H as <-. now repeat split.
    + discriminate.
  - discriminate.
Qed.

(** Decoding and encoding again keeps the value of a document, but for its
    numbers, which are rounded. *)
Lemma decode_encode_sameValue (v : json) :
  forall g : gvalue,
    decodeValue v = Ok g -> sameValue (roundNumbers v) (encodeValue g) = true.
Proof.
  induction v as [ | b | n | s | elems IH | members IH ] using json_nested_ind;
    intros g Hg.
  - injection Hg as <-. reflexivity.
  - injection Hg as <-. simpl. now destruct b.
  - simpl in Hg. destruct (exceedsFloat64 n); [discriminate|].
    injection Hg as <-. apply sameNumber_refl.
  - injection Hg as <-. simpl. apply String.eqb_refl.
  - cbn [decodeValue] in Hg.
    match type of Hg with
    | context [match ?d elems with _ => _ end] =>
        destruct (d elems) as [vs|e] eqn:Hvs; [|discriminate]
    end.
    injection Hg as <-. cbn [roundNumbers encodeValue sameValue].
    revert vs Hvs. induction IH as [|x elems Hx _ IHelems]; intros vs Hvs.
    + injection Hvs as <-. reflexivity.
    + apply decodeElems_cons in Hvs as (w & vs' & -> & Hw & Hvs').
      cbn [List.map]. rewrite (Hx w Hw). now apply IHelems.
  - assert (Hm : exists m, decodeMap (JObject members) = Ok m /\ g = GObject m).
    { unfold decodeMap. destruct (decodeValue (JObject members)) as [g'|e] eqn:Hg';
        [|discriminate]. injection Hg as ->.
      cbn [decodeValue] in Hg'.
      match type of Hg' with
      | context [match ?d members ∅ with _ => _ end] =>
          destruct (d members ∅) as [m|e]; [|discriminate]
      end.
      injection Hg' as <-. now exists m. }
    destruct Hm as (m & Hm & ->). clear Hg.
    pose proof (decodeMap_lookup members m Hm) as Hlookup.
    cbn [roundNumbers encodeValue]. apply sameValue_objects.
    + intros k va Hk. rewrite field_map in Hk. rewrite field_encoded.
      specialize (Hlookup k). destruct (field k members) as [v|] eqn:Hv;
        [|discriminate].
      injection Hk as <-. destruct Hlookup as (g & Hg & ->).
      exists (encodeValue g). split; [reflexivity|].
      assert (Hin : (k, v) ∈ members).
      { clear -Hv. induction members as [|[k' v'] rest IHm]; [discriminate|].
        cbn [field] in Hv. destruct (field k rest) as [w|].
        - right. now apply IHm.
        - destruct (String.eqb_spec k k') as [->|]; [|discriminate].
          injection Hv as ->. left. }
      rewrite Forall_forall in IH. exact (IH (k, v) Hin g Hg).
    + intros k Hk. rewrite field_map in Hk. rewrite field_encoded.
      specialize (Hlookup k). destruct (field k members); [discriminate|].
      now rewrite Hlookup.
Qed.




(** C8 on the request of 100000 bytes, when the second call to the endpoint
    fails: two calls, the answer is 500, nothing else happens. *)
Lemma moderation_error_aborts_witness :
  let config := configWith 0 true [] in
  let text := repeatByte "a" (Z.to_nat 100000) in
  let body := requestJSON "gpt-4" [("user", text)] true [] in
  let chunks :=
    [slice text 0 48000; slice text 48000 96000; slice text 96000 (len text)] in
  let env := envWith (fun n => if (n =? 1)%nat then DoFails "timeout" else unflagged) in
  let run := handleChatCompletions config env (Ok body) [] in
  run = (ReplyError 500 "Moderation error", moderated (take 2 chunks))
  /\ moderationCalls run.2 = 2%nat
  /\ List.filter isProxy run.2 = []
  /\ List.filter isFlagged run.2 = [].
Proof.
  abstract_bytes 100000 s Hs.
  intros config text body chunks env. subst text.
  set (chatReq := {| Model := "gpt-4";
                     Messages := [ {| Role := "user"; Content := s |} ];
                     Stream := true |}).
  assert (Hreq : UnmarshalChatReq body = Ok chatReq) by reflexivity.
  assert (Htext : moderationText config chatReq = s) by reflexivity.
  assert (Hchunks : splitText (moderationText config chatReq) = chunks)
    by (rewrite Htext; apply splitText_three; lia).
  assert (Hrw : exists body', rewriteBody body (getUserContent (Messages chatReq)) = Ok body').
  { change (getUserContent _) with s. unfold rewriteBody.
    rewrite (chooseReplaceModel_mid s) by lia. eexists. reflexivity. }
  destruct Hrw as [body' Hrw].
  assert (Hout : Model chatReq ∉ WhiteListModels config) by apply not_elem_of_nil.
  assert (Hmin : MinCharsModerate config <= len (moderationText config chatReq))
    by (rewrite Htext, Hs; discriminate).
  destruct (moderation_error_aborts config env) as [_ Habort].
  specialize (Habort body body' chatReq 1%nat (slice s 48000 96000) "timeout"
                Hreq Hrw Hout Hmin).
  cbv zeta in Habort. rewrite Hchunks in Habort.
  apply Habort.
  - reflexivity.
  - intros [|j] c Hj Hc; [reflexivity|lia].
  - reflexivity.
Defined.

(** C10 does not hold below the threshold: with "glm-4-air" in the
    allow-list, a request for "gpt-4" with 10241 bytes of content is rewritten
    to "glm-4-air", and with a minimum of 20000 it is forwarded without a
    moderation call. *)
Lemma rewritten_model_allowlisted_not_moderated :
  let config := configWith 20000 true ["glm-4-air"] in
  let content := repeatByte "a" (Z.to_nat 10241) in
  let body := requestJSON "gpt-4" [("user", content)] false [] in
  let chatReq :=
    {| Model := "gpt-4";
       Messages := [ {| Role := "user"; Content := content |} ];
       Stream := false |} in
  let run := handleChatCompletions config (envWith (fun _ => flagged)) (Ok body) [] in
  UnmarshalChatReq body = Ok chatReq
  /\ (Model chatReq ∉ WhiteListModels config)
  /\ exists body' chatReq',
       rewriteBody body (getUserContent (Messages chatReq)) = Ok body'
       /\ UnmarshalChatReq body' = Ok chatReq'
       /\ Model chatReq' ∈ WhiteListModels config
       /\ run = (ReplyProxied 200 "ok", [EvProxy body'])
       /\ moderationCalls run.2 = 0%nat.
Proof.
  abstract_bytes 10241 s Hs.
  intros config content body chatReq run. subst content.
  assert (Hreq : UnmarshalChatReq body = Ok chatReq) by reflexivity.
  split; [exact Hreq|]. split.
  { intros Hin. apply list_elem_of_singleton in Hin. discriminate. }
  assert (Hrw : exists body', rewriteBody body (getUserContent (Messages chatReq)) = Ok body'
                  /\ UnmarshalChatReq body'
                     = Ok {| Model := "glm-4-air";
                             Messages := [ {| Role := "user"; Content := s |} ];
                             Stream := false |}).
  { change (getUserContent _) with s. unfold rewriteBody.
    rewrite (chooseReplaceModel_mid s) by lia. eexists. split; reflexivity. }
  destruct Hrw as (body' & Hrw & Hreq').
  exists body'. eexists. split; [exact Hrw|]. split; [exact Hreq'|].
  split; [left|].
  subst run. rewrite (handleChatCompletions_decoded _ _ _ _ [] Hreq), Hrw.
  assert (Hlen : len (moderationText config chatReq) = 10241) by exact Hs.
  simpl inWhiteList. cbv iota. rewrite Hlen. split; reflexivity.
Qed.

(** C10 with "glm-4-air" in the allow-list and a minimum of 100: a request
    for "gpt-4" with 10241 bytes of content is moderated, though the body to
    be forwarded names "glm-4-air"; the same request for "glm-4-air" is
    not. *)
Lemma allowlist_tests_declared_model_witness :
  let config := configWith 100 true ["glm-4-air"] in
  let env := envWith (fun _ => flagged) in
  let content := repeatByte "a" (Z.to_nat 10241) in
  (let body := requestJSON "gpt-4" [("user", content)] false [] in
   let run := handleChatCompletions config env (Ok body) [] in
   exists tr', run.2 = EvModerate (moderationInput content) :: tr')
  /\ (let body := requestJSON "glm-4-air" [("user", content)] false [] in
      let run := handleChatCompletions config env (Ok body) [] in
      moderationCalls run.2 = 0%nat).
Proof.
  abstract_bytes 10241 s Hs.
  intros config env content. subst content. split.
  - intros body run.
    set (chatReq := {| Model := "gpt-4";
                       Messages := [ {| Role := "user"; Content := s |} ];
                       Stream := false |}).
    assert (Hreq : UnmarshalChatReq body = Ok chatReq) by reflexivity.
    assert (Hout : Model chatReq ∉ WhiteListModels config).
    { intros Hin. apply list_elem_of_singleton in Hin. discriminate. }
    assert (Hrw : exists body', rewriteBody body (getUserContent (Messages chatReq)) = Ok body').
    { change (getUserContent _) with s. unfold rewriteBody.
      rewrite (chooseReplaceModel_mid s) by lia. eexists. reflexivity. }
    destruct Hrw as [body' Hrw].
    assert (Htext : moderationText config chatReq = s) by reflexivity.
    destruct (allowlist_tests_declared_model config env body chatReq Hreq)
      as [_ Hmoderated].
    destruct (Hmoderated Hout body' Hrw) as [_ Hmin].
    destruct Hmin as (first & rest & tr' & Hsplit & Htrace).
    + rewrite Htext, Hs. discriminate.
    + exists tr'. subst run. rewrite Htrace. do 2 f_equal.
      rewrite Htext in Hsplit. unfold splitText in Hsplit.
      destruct (Z.leb_spec (len s) 48000); [|lia]. congruence.
  - intros body run.
    set (chatReq := {| Model := "glm-4-air";
                       Messages := [ {| Role := "user"; Content := s |} ];
                       Stream := false |}).
    assert (Hreq : UnmarshalChatReq body = Ok chatReq) by reflexivity.
    destruct (allowlist_tests_declared_model config env body chatReq Hreq)
      as [Hbypass _].
    apply Hbypass. left.
Defined.

(** * Further properties *)

(** ** Invariants of the handler *)

Section GatewayInvariants.

Context {Body : Type} `{!JSON Body}.
Variable config : Config.
Variable env : Env Body.

Implicit Types (tr : list (Event Body)) (chunks : list string).

(** The three ways the moderation loop ends. *)
Lemma moderateLoop_outcomes chatReq chunks : forall tr,
  moderateLoop config env chatReq chunks tr = (None, tr ++ moderated chunks)
  \/ exists (k : nat) (chunk : string),
       chunks !! k = Some chunk
       /\ (moderateLoop config env chatReq chunks tr =
             (Some (handleFlaggedContent config env (Stream chatReq) (Model chatReq)),
              tr ++ moderated (take (S k) chunks) ++ flagLog env chunk)
           \/ moderateLoop config env chatReq chunks tr =
                (Some (ReplyError 500 "Moderation error"),
                 tr ++ moderated (take (S k) chunks))).
Proof.
  induction chunks as [|c chunks IH]; intros tr.
  - left. simpl. unfold mret, M_ret. now rewrite app_nil_r.
  - simpl moderateLoop. unfold mbind, M_bind. rewrite moderateContent_run.
    destruct (chunkVerdict env (moderationCalls tr) c) as [[|]|e].
    + right. exists 0%nat, c. split; [reflexivity|]. left.
      rewrite logFlaggedContent_run. unfold mret, M_ret. simpl.
      now rewrite <- app_assoc.
    + destruct (IH (tr ++ [EvModerate (moderationInput c)]))
        as [Hnone | (k & chunk & Hk & [Hflag | Herr])].
      * left. rewrite Hnone, <- app_assoc. reflexivity.
      * right. exists (S k), chunk. split; [exact Hk|]. left.
        rewrite Hflag, <- app_assoc. reflexivity.
      * right. exists (S k), chunk. split; [exact Hk|]. right.
        rewrite Herr, <- app_assoc. reflexivity.
    + right. exists 0%nat, c. split; [reflexivity|]. right. reflexivity.
Qed.

Lemma proxyRequest_reply body tr :
  exists reply, isProxyReply reply
    /\ proxyRequest env body tr = (reply, tr ++ [EvProxy body]).
Proof.
  unfold proxyRequest, mbind, M_bind, mret, M_ret, emit. simpl.
  destruct (downstream env body) as [| |status payload].
  - eexists. split; [now left|reflexivity].
  - eexists. split; [now left|reflexivity].
  - eexists. split; [right; eauto|reflexivity].
Qed.

(** The four ways the handler ends on a decoded request. *)
Lemma handler_outcomes body chatReq :
  UnmarshalChatReq body = Ok chatReq ->
  let run := handleChatCompletions config env (Ok body) [] in
  let chunks := splitText (moderationText config chatReq) in
  ((exists e, rewriteBody body (getUserContent (Messages chatReq)) = Err e)
   /\ run = (ReplyError 500 "Error replacing model value", []))
  \/ exists body',
       rewriteBody body (getUserContent (Messages chatReq)) = Ok body'
       /\ ((exists (n : nat) (reply : Reply),
              (n = 0%nat \/ n = List.length chunks)
              /\ isProxyReply reply
              /\ run = (reply, moderated (take n chunks) ++ [EvProxy body']))
           \/ (exists (k : nat) (chunk : string),
                 chunks !! k = Some chunk
                 /\ run = (handleFlaggedContent config env (Stream chatReq) (Model chatReq),
                           moderated (take (S k) chunks) ++ flagLog env chunk))
           \/ (exists (k : nat) (chunk : string),
                 chunks !! k = Some chunk
                 /\ run = (ReplyError 500 "Moderation error",
                           moderated (take (S k) chunks)))).
Proof.
  intros Hreq run chunks. subst run.
  rewrite (handleChatCompletions_decoded _ _ _ _ _ Hreq).
  destruct (rewriteBody body _) as [body'|e]; [|left; eauto].
  right. exists body'. split; [reflexivity|].
  assert (Hbypass : exists (n : nat) (reply : Reply),
             (n = 0%nat \/ n = List.length chunks)
             /\ isProxyReply reply
             /\ proxyRequest env body' [] =
                  (reply, moderated (take n chunks) ++ [EvProxy body'])).
  { destruct (proxyRequest_reply body' []) as (reply & Hreply & Hrun).
    exists 0%nat, reply. rewrite take_0. auto. }
  destruct (inWhiteList _ _); [left; exact Hbypass|].
  destruct (len _ >=? _); [|left; exact Hbypass].
  fold chunks.
  destruct (moderateLoop_outcomes chatReq chunks [])
    as [Hnone | (k & chunk & Hk & [Hflag | Herr])].
  - rewrite Hnone. simpl.
    destruct (proxyRequest_reply body' (moderated chunks)) as (reply & Hreply & Hrun).
    left. exists (List.length chunks), reply. rewrite firstn_all. auto.
  - rewrite Hflag. right. left. eauto.
  - rewrite Herr. right. right. eauto.
Qed.

Lemma elem_of_moderated (e : Event Body) chunks :
  e ∈ moderated chunks -> isModerate e = true.
Proof.
  unfold moderated. intros Hin. apply list_elem_of_In, in_map_iff in Hin.
  destruct Hin as (c & <- & _). reflexivity.
Qed.

Lemma filter_moderated (p : Event Body -> bool) chunks :
  (forall e, isModerate e = true -> p e = false) ->
  List.filter p (moderated chunks) = [].
Proof.
  intros Hp. unfold moderated. induction chunks as [|c chunks IH]; simpl;
    [reflexivity|]. now rewrite (Hp (EvModerate (moderationInput c)) eq_refl).
Qed.

Lemma filter_isModerate_moderated chunks :
  List.filter isModerate (moderated (Body := Body) chunks) = moderated chunks.
Proof.
  unfold moderated. induction chunks as [|c chunks IH]; simpl; [reflexivity|].
  now rewrite IH.
Qed.

Lemma filter_isModerate_flagLog content :
  List.filter isModerate (flagLog env content) = [].
Proof. unfold flagLog. now destruct (appendFails env). Qed.

(** The handler with the reply of a forward written out. *)
Lemma handler_outcomes_exact body chatReq :
  UnmarshalChatReq body = Ok chatReq ->
  let run := handleChatCompletions config env (Ok body) [] in
  (run.2 = [] /\ exists e, run.1 = ReplyError 500 e)
  \/ (exists (b : Body) (pre : list (Event Body)),
        run.2 = pre ++ [EvProxy b]
        /\ List.filter isProxy pre = []
        /\ run.1 = match downstream env b with
                   | ProxyResponds status payload => ReplyProxied status payload
                   | _ => ReplyError 500 "Error forwarding request"
                   end)
  \/ (List.filter isProxy run.2 = []
      /\ ((exists isStream model, run.1 = handleFlaggedContent config env isStream model)
          \/ exists e, run.1 = ReplyError 500 e)).
Proof.
  intros Hreq run. subst run.
  assert (Hfwd : forall (b : Body) (pre : list (Event Body)),
             List.filter isProxy pre = [] ->
             exists (b0 : Body) (pre0 : list (Event Body)),
               (proxyRequest env b pre).2 = pre0 ++ [EvProxy b0]
               /\ List.filter isProxy pre0 = []
               /\ (proxyRequest env b pre).1
                  = match downstream env b0 with
                    | ProxyResponds status payload => ReplyProxied status payload
                    | _ => ReplyError 500 "Error forwarding request"
                    end).
  { intros b pre Hpre. exists b, pre. split; [apply proxyRequest_trace|].
    split; [exact Hpre|].
    unfold proxyRequest, mbind, M_bind, mret, M_ret, emit. simpl.
    now destruct (downstream env b). }
  rewrite (handleChatCompletions_decoded _ _ _ _ _ Hreq).
  destruct (rewriteBody body _) as [body'|e]; [|left; split; [reflexivity|eauto]].
  destruct (inWhiteList _ _); [right; left; now apply Hfwd|].
  destruct (len _ >=? _); [|right; left; now apply Hfwd].
  destruct (moderateLoop_outcomes chatReq (splitText (moderationText config chatReq)) [])
    as [Hnone | (k & chunk & Hk & [Hflag | Herr])].
  - rewrite Hnone. right. left. apply Hfwd. apply noProxy_moderated.
  - rewrite Hflag. right. right. cbn [fst snd app]. split; [|left; eauto].
    rewrite List.filter_app, noProxy_moderated, noProxy_flagLog. reflexivity.
  - rewrite Herr. right. right. cbn [fst snd app]. split; [|right; eauto].
    apply noProxy_moderated.
Qed.

Lemma isProxy_elem_of (b : Body) (pre : list (Event Body)) :
  List.filter isProxy pre = [] -> EvProxy b ∉ pre.
Proof.
  intros Hpre Hin. apply list_elem_of_In in Hin.
  assert (Hf : In (EvProxy b) (List.filter isProxy pre))
    by (apply List.filter_In; now split).
  rewrite Hpre in Hf. destruct Hf.
Qed.

(** X1. The client gets status 400 in two cases and no other. Either the
    body cannot be read or does not decode into a chat request: the handler
    then answers 400 itself, with "Error reading request body" or the
    decoder's message, and nothing is moderated, logged or forwarded. Or the
    request was forwarded and the target answered 400: whatever status the
    target gives to a forwarded request is relayed with its payload. *)
Theorem status_400_origins (rawBody : Result Body) :
  let run := handleChatCompletions config env rawBody [] in
  (replyStatus run.1 = 400
   <-> (exists e, rawBody = Err e)
       \/ (exists body e, rawBody = Ok body /\ UnmarshalChatReq body = Err e)
       \/ (exists b payload,
             EvProxy b ∈ run.2 /\ downstream env b = ProxyResponds 400 payload))
  /\ (forall e, rawBody = Err e ->
        run = (ReplyError 400 "Error reading request body", []))
  /\ (forall body e, rawBody = Ok body -> UnmarshalChatReq body = Err e ->
        run = (ReplyError 400 e, []))
  /\ (forall b status payload,
        EvProxy b ∈ run.2 -> downstream env b = ProxyResponds status payload ->
        run.1 = ReplyProxied status payload).
Proof.
  intros run. subst run. destruct rawBody as [body|e0].
  2:{ simpl. split; [split; eauto|]. split; [reflexivity|].
      split; [discriminate|]. intros b status payload Hin. inversion Hin. }
  destruct (UnmarshalChatReq body) as [chatReq|e0] eqn:Hreq.
  2:{ unfold handleChatCompletions. rewrite Hreq. simpl.
      split; [split; [intros _; right; left; eauto|reflexivity]|].
      split; [discriminate|]. split; [intros body0 e [= <-] He; rewrite Hreq in He;
               injection He as <-; reflexivity|].
      intros b status payload Hin. inversion Hin. }
  assert (Hrelay : forall b status payload,
             EvProxy b ∈ (handleChatCompletions config env (Ok body) []).2 ->
             downstream env b = ProxyResponds status payload ->
             (handleChatCompletions config env (Ok body) []).1
             = ReplyProxied status payload).
  { intros b status payload Hin Hdown.
    destruct (handler_outcomes_exact body chatReq Hreq)
      as [[Hnil _] | [(b0 & pre & Htr & Hpre & Hreply) | [Hno _]]].
    - rewrite Hnil in Hin. inversion Hin.
    - rewrite Htr in Hin. apply elem_of_app in Hin. destruct Hin as [Hin|Hin].
      + now apply isProxy_elem_of in Hin.
      + apply list_elem_of_singleton in Hin. injection Hin as ->.
        now rewrite Hreply, Hdown.
    - now apply isProxy_elem_of in Hin. }
  split; [|split; [discriminate|split; [congruence|exact Hrelay]]].
  split.
  - intros Hstatus. right. right.
    destruct (handler_outcomes_exact body chatReq Hreq)
      as [[_ [e He]] | [(b0 & pre & Htr & Hpre & Hreply)
                       | [_ [(isStream & model & He) | [e He]]]]].
    + rewrite He in Hstatus. discriminate.
    + rewrite Hreply in Hstatus.
      destruct (downstream env b0) as [| |status payload] eqn:Hdown;
        try discriminate.
      simpl in Hstatus. subst status. exists b0, payload.
      split; [|exact Hdown]. rewrite Htr. apply elem_of_app. right. left.
    + rewrite He in Hstatus. unfold handleFlaggedContent in Hstatus.
      destruct isStream; discriminate.
    + rewrite He in Hstatus. discriminate.
  - intros [[e He] | [(body0 & e & Hb & He) | (b & payload & Hin & Hdown)]].
    + discriminate.
    + injection Hb as <-. congruence.
    + now rewrite (Hrelay b 400 payload Hin Hdown).
Qed.

(** Where a forward can stand in the trace, and what is forwarded. *)
Lemma forwarded_last (rawBody : Result Body) (b : Body) :
  EvProxy b ∈ (handleChatCompletions config env rawBody []).2 ->
  exists body chatReq pre,
    rawBody = Ok body
    /\ UnmarshalChatReq body = Ok chatReq
    /\ rewriteBody body (getUserContent (Messages chatReq)) = Ok b
    /\ (handleChatCompletions config env rawBody []).2 = pre ++ [EvProxy b]
    /\ (forall e, e ∈ pre -> isModerate e = true).
Proof.
  intros Hin. destruct rawBody as [body|e0]; [|inversion Hin].
  destruct (UnmarshalChatReq body) as [chatReq|e0] eqn:Hreq.
  2:{ unfold handleChatCompletions in Hin. rewrite Hreq in Hin. inversion Hin. }
  exists body, chatReq.
  destruct (handler_outcomes body chatReq Hreq)
    as [[_ Hrun] | (body' & Hrw & [(n & reply & _ & Hreply & Hrun)
                                  | [(k & chunk & _ & Hrun) | (k & chunk & _ & Hrun)]])];
    rewrite Hrun in Hin |- *; simpl in Hin |- *.
  - inversion Hin.
  - apply elem_of_app in Hin. destruct Hin as [Hin|Hin].
    + apply elem_of_moderated in Hin. discriminate.
    + apply list_elem_of_singleton in Hin. injection Hin as ->.
      eexists. repeat split; eauto. intros e. apply elem_of_moderated.
  - apply elem_of_app in Hin. destruct Hin as [Hin|Hin].
    + apply elem_of_moderated in Hin. discriminate.
    + unfold flagLog in Hin. destruct (appendFails env);
        repeat (apply elem_of_cons in Hin; destruct Hin as [Hin|Hin];
                [discriminate|]); inversion Hin.
  - apply elem_of_moderated in Hin. discriminate.
Qed.

(** X2. The handler forwards at most once, and a forward is the last thing
    it does: everything before it in the trace is a moderation call. *)
Theorem forwards_at_most_once_and_last (rawBody : Result Body) (b : Body) :
  let run := handleChatCompletions config env rawBody [] in
  EvProxy b ∈ run.2 ->
  exists pre,
    run.2 = pre ++ [EvProxy b]
    /\ (forall e, e ∈ pre -> isModerate e = true)
    /\ List.filter isProxy run.2 = [EvProxy b].
Proof.
  intros run Hin. subst run.
  destruct (forwarded_last rawBody b Hin) as (body & chatReq & pre & _ & _ & _ & Hrun & Hpre).
  exists pre. rewrite Hrun. split; [reflexivity|]. split; [exact Hpre|].
  rewrite List.filter_app. simpl.
  replace (List.filter isProxy pre) with (@nil (Event Body)); [reflexivity|].
  symmetry. clear Hrun Hin. induction pre as [|e pre IH]; [reflexivity|].
  simpl. assert (He : isModerate e = true) by (apply Hpre; left).
  destruct e; try discriminate. simpl. apply IH.
  intros e' He'. apply Hpre. now right.
Qed.

(** X3. Whatever is forwarded is the result of the size rule on the inbound
    body: the body itself when no model is chosen, and otherwise the output
    of [replaceModelValue]; no other body ever reaches the target. *)
Theorem forwarded_body_is_rewrite_result (rawBody : Result Body) (b : Body) :
  EvProxy b ∈ (handleChatCompletions config env rawBody []).2 ->
  exists body chatReq,
    rawBody = Ok body
    /\ UnmarshalChatReq body = Ok chatReq
    /\ (if (chooseReplaceModel (getUserContent (Messages chatReq)) =? "")%string
        then b = body
        else replaceModelValue body
               (chooseReplaceModel (getUserContent (Messages chatReq))) = Ok b).
Proof.
  intros Hin.
  destruct (forwarded_last rawBody b Hin) as (body & chatReq & pre & -> & Hreq & Hrw & _).
  exists body, chatReq. split; [reflexivity|]. split; [exact Hreq|].
  unfold rewriteBody in Hrw.
  destruct (chooseReplaceModel _ =? "")%string; simpl in Hrw; congruence.
Qed.

(** X4. A request whose user and system contents join to at most 10 KiB is
    forwarded, if at all, with the very body that came in. *)
Theorem small_request_forwarded_verbatim (body b : Body) (chatReq : OpenAIChatReq) :
  UnmarshalChatReq body = Ok chatReq ->
  len (getUserContent (Messages chatReq)) <= 10240 ->
  EvProxy b ∈ (handleChatCompletions config env (Ok body) []).2 ->
  b = body.
Proof.
  intros Hreq Hlen Hin.
  destruct (forwarded_last (Ok body) b Hin) as (body0 & chatReq0 & pre & Hb & Hreq0 & Hrw & _).
  injection Hb as <-. rewrite Hreq in Hreq0. injection Hreq0 as <-.
  unfold rewriteBody in Hrw.
  destruct (chooseReplaceModel_cases (getUserContent (Messages chatReq))) as [Hsmall _].
  rewrite (Hsmall Hlen) in Hrw. simpl in Hrw. congruence.
Qed.

(** X5. When a text is logged as flagged, it is a chunk of this request's
    text, [moderateContent] has been called on it, it is the only text
    logged, nothing is forwarded, and the reply is the rejection built from
    this request's model and sent as this request's stream flag asks. *)
Theorem flagged_request_is_not_forwarded (rawBody : Result Body) (content : string) :
  let run := handleChatCompletions config env rawBody [] in
  EvFlagged content ∈ run.2 ->
  EvModerate (moderationInput content) ∈ run.2
  /\ List.filter isFlagged run.2 = [EvFlagged content]
  /\ List.filter isProxy run.2 = []
  /\ exists (body : Body) (chatReq : OpenAIChatReq),
       rawBody = Ok body
       /\ UnmarshalChatReq body = Ok chatReq
       /\ content ∈ splitText (moderationText config chatReq)
       /\ run.1 =
            let response :=
              {| ID := ("chatcmpl-" ++ slice (uuid1 env) 0 24)%string;
                 Object := "chat.completion.chunk";
                 Created := unixNow env;
                 RespModel :=
                   if decide (Model chatReq = "") then "gpt-4o-mini"
                   else Model chatReq;
                 SystemFingerprint := ("fp_" ++ slice (uuid2 env) 0 12)%string;
                 Choices := [ {| Index := 0;
                                 Delta := {[ "content" := WarningMsg config ]};
                                 Logprobs := None;
                                 FinishReason := "stop" |} ] |} in
            if Stream chatReq
            then ReplyStream "text/event-stream"
                   [SSEvent "" (JSONOf response); SSEvent "" (Text "[DONE]")]
            else ReplyJSON 200 response.
Proof.
  intros run Hin. subst run. destruct rawBody as [body|e0]; [|inversion Hin].
  destruct (UnmarshalChatReq body) as [chatReq|e0] eqn:Hreq.
  2:{ unfold handleChatCompletions in Hin. rewrite Hreq in Hin. inversion Hin. }
  destruct (handler_outcomes body chatReq Hreq)
    as [[_ Hrun] | (body' & Hrw & [(n & reply & _ & Hreply & Hrun)
                                  | [(k & chunk & Hk & Hrun) | (k & chunk & _ & Hrun)]])];
    rewrite Hrun in Hin |- *; cbn [fst snd] in Hin |- *.
  - inversion Hin.
  - apply elem_of_app in Hin. destruct Hin as [Hin|Hin].
    + apply elem_of_moderated in Hin. discriminate.
    + apply list_elem_of_singleton in Hin. discriminate.
  - assert (content = chunk) as ->.
    { apply elem_of_app in Hin. destruct Hin as [Hin|Hin].
      - apply elem_of_moderated in Hin. discriminate.
      - unfold flagLog in Hin. destruct (appendFails env).
        + apply list_elem_of_singleton in Hin. congruence.
        + apply elem_of_cons in Hin. destruct Hin as [Hin|Hin]; [congruence|].
          apply list_elem_of_singleton in Hin. discriminate. }
    split; [|split; [|split]].
    + apply elem_of_app. left. rewrite (take_S_r _ _ _ Hk).
      unfold moderated. rewrite map_app. apply elem_of_app. right. left.
    + rewrite List.filter_app, filter_moderated by (now intros []).
      unfold flagLog. now destruct (appendFails env).
    + rewrite List.filter_app, filter_moderated by (now intros []).
      unfold flagLog. now destruct (appendFails env).
    + exists body, chatReq. split; [reflexivity|]. split; [exact Hreq|].
      split; [now apply list_elem_of_lookup_2 in Hk|].
      apply handleFlaggedContent_shape.
  - apply elem_of_moderated in Hin. discriminate.
Qed.

(** X6. The calls to [moderateContent] are made on the first chunks of the
    text under the threshold test, in order and once each: the strings it
    puts under "input" in the map it hands to [json.Marshal] are these
    chunks. *)
Theorem moderated_inputs_are_leading_chunks (body : Body) (chatReq : OpenAIChatReq) :
  UnmarshalChatReq body = Ok chatReq ->
  let run := handleChatCompletions config env (Ok body) [] in
  let chunks := splitText (moderationText config chatReq) in
  exists n : nat,
    (n <= List.length chunks)%nat
    /\ List.filter isModerate run.2 = moderated (take n chunks).
Proof.
  intros Hreq run chunks. subst run chunks.
  destruct (handler_outcomes body chatReq Hreq)
    as [[_ Hrun] | (body' & Hrw & [(n & reply & Hn & Hreply & Hrun)
                                  | [(k & chunk & Hk & Hrun) | (k & chunk & Hk & Hrun)]])];
    rewrite Hrun; cbn [fst snd].
  - exists 0%nat. split; [lia|]. now rewrite take_0.
  - exists n. split; [destruct Hn as [-> | ->]; [apply Nat.le_0_l|apply Nat.le_refl]|].
    rewrite List.filter_app, filter_isModerate_moderated. simpl.
    now rewrite app_nil_r.
  - exists (S k). split; [apply lookup_lt_Some in Hk; lia|].
    rewrite List.filter_app, filter_isModerate_moderated, filter_isModerate_flagLog.
    now rewrite app_nil_r.
  - exists (S k). split; [apply lookup_lt_Some in Hk; lia|].
    apply filter_isModerate_moderated.
Qed.

(** X9. A request without messages is still moderated when the minimum is
    not positive: its text is empty in either mode, [splitText] returns the
    empty text as one chunk, and one call is made on it. *)
Theorem empty_request_is_moderated_once (body : Body) (chatReq : OpenAIChatReq) :
  UnmarshalChatReq body = Ok chatReq ->
  Messages chatReq = [] ->
  Model chatReq ∉ WhiteListModels config ->
  MinCharsModerate config <= 0 ->
  List.filter isModerate (handleChatCompletions config env (Ok body) []).2
  = [EvModerate (moderationInput "")].
Proof.
  intros Hreq Hnil Hout Hmin.
  rewrite (handleChatCompletions_decoded _ _ _ _ _ Hreq).
  apply inWhiteList_not_elem_of in Hout. rewrite Hout.
  assert (Htext : moderationText config chatReq = "").
  { unfold moderationText. rewrite Hnil. now destruct (FullContextModerate config). }
  rewrite Htext, Hnil. change (rewriteBody body (getUserContent [])) with (Ok body).
  change (len "") with 0.
  destruct (Z.geb_spec 0 (MinCharsModerate config)); [|lia].
  change (splitText "") with [""].
  destruct (moderateLoop_outcomes chatReq [""] [])
    as [Hnone | (k & chunk & Hk & [Hrun | Hrun])].
  - rewrite Hnone, proxyRequest_trace. reflexivity.
  - destruct k; [|destruct k; discriminate]. rewrite Hrun. cbn [snd app].
    rewrite List.filter_app, filter_isModerate_moderated, filter_isModerate_flagLog.
    reflexivity.
  - destruct k; [|destruct k; discriminate]. rewrite Hrun. reflexivity.
Qed.


(** ** Flag log *)

Lemma logFileAfter_app (file : string) tr1 tr2 :
  logFileAfter file (tr1 ++ tr2) = logFileAfter (logFileAfter file tr1) tr2.
Proof.
  revert file. induction tr1 as [|e tr1 IH]; intros file; [reflexivity|].
  destruct e; simpl; try apply IH.
  destruct (filename =? "log.txt")%string; apply IH.
Qed.

Lemma logFileAfter_moderated (file : string) chunks :
  logFileAfter file (moderated (Body := Body) chunks) = file.
Proof. unfold moderated. induction chunks; simpl; auto. Qed.

Lemma logFileAfter_flagLog (file content : string) :
  logFileAfter file (flagLog env content) =
    if appendFails env then file else (file ++ (content ++ String "010" ""))%string.
Proof. unfold flagLog. now destruct (appendFails env). Qed.

(** X10. A request reaches the log file only through a flagged chunk. When
    no text is logged as flagged, nothing is written and the file is what it
    was. When a text is logged as flagged and [appendToFile] returns no
    error, the file is what it was, followed by that text and a newline. *)
Theorem log_file_gains_flagged_chunk (rawBody : Result Body) (file : string) :
  let run := handleChatCompletions config env rawBody [] in
  (List.filter isFlagged run.2 = [] ->
   List.filter isAppend run.2 = [] /\ logFileAfter file run.2 = file)
  /\ (forall content : string,
        EvFlagged content ∈ run.2 ->
        appendFails env = false ->
        List.filter isAppend run.2 = [EvAppend "log.txt" (content ++ String "010" "")]
        /\ logFileAfter file run.2 = (file ++ (content ++ String "010" ""))%string).
Proof.
  intros run. subst run.
  assert (Hnil : forall tr : list (Event Body),
             tr = [] ->
             (List.filter isFlagged tr = [] ->
              List.filter isAppend tr = [] /\ logFileAfter file tr = file)
             /\ (forall content : string,
                   EvFlagged content ∈ tr ->
                   appendFails env = false ->
                   List.filter isAppend tr
                   = [EvAppend "log.txt" (content ++ String "010" "")]
                   /\ logFileAfter file tr
                      = (file ++ (content ++ String "010" ""))%string)).
  { intros tr ->. split; [now split|]. intros content Hin. inversion Hin. }
  destruct rawBody as [body|e0]; [|now apply Hnil].
  destruct (UnmarshalChatReq body) as [chatReq|e0] eqn:Hreq.
  2:{ apply Hnil. unfold handleChatCompletions. rewrite Hreq. reflexivity. }
  clear Hnil.
  destruct (handler_outcomes body chatReq Hreq)
    as [[_ Hrun] | (body' & Hrw & [(n & reply & _ & Hreply & Hrun)
                                  | [(k & chunk & Hk & Hrun) | (k & chunk & _ & Hrun)]])];
    rewrite Hrun; cbn [fst snd].
  - split; [now split|]. intros content Hin. inversion Hin.
  - split.
    + intros _. rewrite logFileAfter_app, logFileAfter_moderated, List.filter_app,
        filter_moderated by (now intros []). now split.
    + intros content Hin. apply elem_of_app in Hin. destruct Hin as [Hin|Hin].
      * apply elem_of_moderated in Hin. discriminate.
      * apply list_elem_of_singleton in Hin. discriminate.
  - split.
    + rewrite List.filter_app, filter_moderated by (now intros []).
      unfold flagLog. destruct (appendFails env); discriminate.
    + intros content Hin Hok.
      assert (content = chunk) as ->.
      { apply elem_of_app in Hin. destruct Hin as [Hin|Hin].
        - apply elem_of_moderated in Hin. discriminate.
        - unfold flagLog in Hin. rewrite Hok in Hin.
          apply elem_of_cons in Hin. destruct Hin as [Hin|Hin]; [congruence|].
          apply list_elem_of_singleton in Hin. discriminate. }
      rewrite logFileAfter_app, logFileAfter_moderated, logFileAfter_flagLog,
        List.filter_app, filter_moderated by (now intros []).
      unfold flagLog. rewrite Hok. now split.
  - split.
    + intros _. rewrite logFileAfter_moderated, filter_moderated by (now intros []).
      now split.
    + intros content Hin. apply elem_of_moderated in Hin. discriminate.
Qed.

End GatewayInvariants.

(** X8. What is forwarded depends on the body alone: two runs on the same
    body, under any two configurations and environments, forward the same
    bytes if both forward. *)
Theorem forwarded_body_depends_on_body_only {Body : Type} `{!JSON Body}
    (config config' : Config) (env env' : Env Body)
    (rawBody : Result Body) (b b' : Body) :
  EvProxy b ∈ (handleChatCompletions config env rawBody []).2 ->
  EvProxy b' ∈ (handleChatCompletions config' env' rawBody []).2 ->
  b = b'.
Proof.
  intros Hin Hin'.
  destruct (forwarded_last config env rawBody b Hin)
    as (body & chatReq & pre & -> & Hreq & Hrw & _).
  destruct (forwarded_last config' env' (Ok body) b' Hin')
    as (body0 & chatReq0 & pre0 & Hb & Hreq0 & Hrw0 & _).
  injection Hb as <-. rewrite Hreq in Hreq0. injection Hreq0 as <-. congruence.
Qed.


Lemma withoutAppends_app {Body} (tr1 tr2 : list (Event Body)) :
  withoutAppends (tr1 ++ tr2) = withoutAppends tr1 ++ withoutAppends tr2.
Proof. apply List.filter_app. Qed.

Lemma moderationCalls_withoutAppends {Body} (tr : list (Event Body)) :
  moderationCalls (withoutAppends tr) = moderationCalls tr.
Proof.
  unfold moderationCalls, withoutAppends.
  induction tr as [|e tr IH]; [reflexivity|]. destruct e; simpl; auto.
Qed.

Lemma withoutAppends_flagLog {Body} (env : Env Body) (content : string) :
  withoutAppends (flagLog env content) = [EvFlagged content].
Proof. unfold flagLog. now destruct (appendFails env). Qed.

(** The loop under two environments that differ in [appendFails] only. *)
Lemma moderateLoop_withAppendFails {Body} (config : Config) (env : Env Body)
    (fails : bool) (chatReq : OpenAIChatReq) (chunks : list string) :
  forall tr tr' : list (Event Body),
    withoutAppends tr' = withoutAppends tr ->
    (moderateLoop config (withAppendFails fails env) chatReq chunks tr').1
    = (moderateLoop config env chatReq chunks tr).1
    /\ withoutAppends (moderateLoop config (withAppendFails fails env) chatReq chunks tr').2
       = withoutAppends (moderateLoop config env chatReq chunks tr).2.
Proof.
  induction chunks as [|c chunks IH]; intros tr tr' Htr.
  - split; [reflexivity|exact Htr].
  - simpl moderateLoop. unfold mbind, M_bind. rewrite !moderateContent_run.
    assert (Hcalls : moderationCalls tr' = moderationCalls tr)
      by (rewrite <- (moderationCalls_withoutAppends tr'), Htr;
          apply moderationCalls_withoutAppends).
    change (chunkVerdict (withAppendFails fails env) (moderationCalls tr') c)
      with (chunkVerdict env (moderationCalls tr') c).
    rewrite Hcalls.
    destruct (chunkVerdict env (moderationCalls tr) c) as [[|]|e].
    + rewrite !logFlaggedContent_run. unfold mret, M_ret. cbn [fst snd].
      split; [reflexivity|].
      rewrite !withoutAppends_app, !withoutAppends_flagLog, Htr. reflexivity.
    + apply IH. rewrite !withoutAppends_app, Htr. reflexivity.
    + unfold mret, M_ret. cbn [fst snd]. split; [reflexivity|].
      rewrite !withoutAppends_app, Htr. reflexivity.
Qed.

Lemma proxyRequest_withAppendFails {Body} (env : Env Body) (fails : bool)
    (body : Body) (tr tr' : list (Event Body)) :
  withoutAppends tr' = withoutAppends tr ->
  (proxyRequest (withAppendFails fails env) body tr').1 = (proxyRequest env body tr).1
  /\ withoutAppends (proxyRequest (withAppendFails fails env) body tr').2
     = withoutAppends (proxyRequest env body tr).2.
Proof.
  intros Htr. rewrite !proxyRequest_trace, !withoutAppends_app, Htr.
  split; [|reflexivity].
  unfold proxyRequest, mbind, M_bind, mret, M_ret, emit. simpl.
  now destruct (downstream env body).
Qed.

(** X7. A failure to write the log file changes nothing for the client nor
    for the other effects of the request: the reply, the moderation calls,
    the flag warning and the forward are the same whether [appendToFile]
    fails or not. *)
Theorem log_write_failure_is_invisible {Body : Type} `{!JSON Body}
    (config : Config) (env : Env Body) (fails : bool) (rawBody : Result Body) :
  let run := handleChatCompletions config env rawBody [] in
  let run' := handleChatCompletions config (withAppendFails fails env) rawBody [] in
  run'.1 = run.1 /\ withoutAppends run'.2 = withoutAppends run.2.
Proof.
  intros run run'. subst run run'. destruct rawBody as [body|e0]; [|now split].
  destruct (UnmarshalChatReq body) as [chatReq|e0] eqn:Hreq.
  2:{ unfold handleChatCompletions. rewrite Hreq. now split. }
  rewrite !(handleChatCompletions_decoded _ _ _ _ _ Hreq).
  destruct (rewriteBody body _) as [body'|e]; [|now split].
  destruct (inWhiteList _ _); [now apply proxyRequest_withAppendFails|].
  destruct (len _ >=? _); [|now apply proxyRequest_withAppendFails].
  destruct (moderateLoop_withAppendFails config env fails chatReq
              (splitText (moderationText config chatReq)) [] [] eq_refl)
    as [Hreply Htrace].
  destruct (moderateLoop config (withAppendFails fails env) chatReq _ [])
    as [r' tr'], (moderateLoop config env chatReq _ []) as [r tr].
  cbn [fst snd] in Hreply, Htrace. subst r'.
  destruct r as [reply|]; [now split|]. now apply proxyRequest_withAppendFails.
Qed.

(** ** Log viewer *)

Lemma ReplaceAll_app (s t : string) (old : ascii) (new : string) :
  ReplaceAll (s ++ t) old new
  = (ReplaceAll s old new ++ ReplaceAll t old new)%string.
Proof.
  induction s as [|c s IH]; [reflexivity|].
  rewrite append_cons. simpl. rewrite IH.
  destruct (Ascii.eqb c old); [now rewrite append_assoc|now rewrite append_cons].
Qed.

Lemma allBytes_app (p : ascii -> bool) (s t : string) :
  allBytes p (s ++ t) = allBytes p s && allBytes p t.
Proof.
  induction s as [|c s IH]; [reflexivity|].
  rewrite append_cons. simpl. rewrite IH. now rewrite andb_assoc.
Qed.

Lemma ReplaceAll_removes (s : string) (old : ascii) (new : string) :
  allBytes (fun c => negb (Ascii.eqb c old)) new = true ->
  allBytes (fun c => negb (Ascii.eqb c old)) (ReplaceAll s old new) = true.
Proof.
  intros Hnew. induction s as [|c s IH]; [reflexivity|]. simpl.
  destruct (Ascii.eqb c old) eqn:Hc.
  - rewrite allBytes_app, Hnew, IH. reflexivity.
  - simpl. rewrite Hc, IH. reflexivity.
Qed.

Lemma ReplaceAll_absent (s : string) (old : ascii) (new : string) :
  allBytes (fun c => negb (Ascii.eqb c old)) s = true ->
  ReplaceAll s old new = s.
Proof.
  induction s as [|c s IH]; [reflexivity|]. simpl. intros Hs.
  apply andb_true_iff in Hs. destruct Hs as [Hc Hs].
  apply negb_true_iff in Hc. rewrite Hc, IH by exact Hs. reflexivity.
Qed.

(** X11. What the viewer shows after a chunk has been flagged and logged:
    the page of the file as it was, then the chunk with its newlines turned
    into line breaks, then one line break. *)
Theorem viewer_shows_logged_chunk {Body : Type} (env : Env Body)
    (file content : string) :
  appendFails env = false ->
  GetBanndedContent (Ok (logFileAfter file (logFlaggedContent env content []).2))
  = ViewerData 200 "text/html; charset=utf-8"
      ("<html><body>"
       ++ (ReplaceAll file "010" "<br>" ++ ReplaceAll content "010" "<br>" ++ "<br>")
       ++ "</body></html>")%string.
Proof.
  intros Hok. rewrite logFlaggedContent_run. simpl.
  unfold flagLog. rewrite Hok. simpl. unfold GetBanndedContent.
  rewrite !ReplaceAll_app. reflexivity.
Qed.

(** X12. The page of the viewer is one line: every newline of the log file
    has become a line break, whatever the file holds. *)
Theorem viewer_page_has_no_newline (file : string) :
  exists data : string,
    GetBanndedContent (Ok file) = ViewerData 200 "text/html; charset=utf-8" data
    /\ allBytes (fun c => negb (Ascii.eqb c "010")) data = true.
Proof.
  eexists. split; [reflexivity|].
  rewrite !allBytes_app, ReplaceAll_removes by reflexivity. reflexivity.
Qed.

(** X13. The viewer does not escape what was logged: a logged text without
    newlines stands in the page byte for byte, followed by a line break. *)
Theorem viewer_embeds_log_verbatim (file content : string) :
  allBytes (fun c => negb (Ascii.eqb c "010")) content = true ->
  GetBanndedContent (Ok (file ++ (content ++ String "010" ""))%string)
  = ViewerData 200 "text/html; charset=utf-8"
      ("<html><body>"
       ++ (ReplaceAll file "010" "<br>" ++ content ++ "<br>")
       ++ "</body></html>")%string.
Proof.
  intros Hcontent. unfold GetBanndedContent.
  rewrite !ReplaceAll_app, (ReplaceAll_absent content) by exact Hcontent.
  reflexivity.
Qed.

(** ** Headers *)

Lemma copyHeadersIn_lookup (order : list (string * list string))
    (dest : gmap string (list string)) (k : string) :
  NoDup (order.*1) ->
  copyHeadersIn order dest !! k =
    match (list_to_map order : gmap string (list string)) !! k with
    | Some values => Some values
    | None => dest !! k
    end.
Proof.
  revert dest. induction order as [|[name values] order IH]; intros dest Hnd.
  - reflexivity.
  - apply NoDup_cons in Hnd. destruct Hnd as [Hname Hnd].
    change (copyHeadersIn ((name, values) :: order) dest)
      with (copyHeadersIn order (<[name := values]> dest)).
    rewrite IH by exact Hnd. simpl list_to_map.
    destruct (decide (name = k)) as [->|Hne].
    + rewrite lookup_insert_eq.
      rewrite (not_elem_of_list_to_map_1 _ _ Hname). now rewrite lookup_insert_eq.
    + rewrite !lookup_insert_ne by exact Hne. reflexivity.
Qed.

Lemma copyHeadersIn_union (src dest : gmap string (list string))
    (order : list (string * list string)) :
  order ≡ₚ map_to_list src ->
  copyHeadersIn order dest = src ∪ dest.
Proof.
  intros Hperm. apply map_eq. intros k.
  assert (Hnd : NoDup (order.*1)).
  { rewrite Hperm. apply NoDup_fst_map_to_list. }
  rewrite (copyHeadersIn_lookup _ _ _ Hnd).
  rewrite (list_to_map_proper _ _ Hnd Hperm), list_to_map_to_list.
  rewrite lookup_union. destruct (src !! k), (dest !! k); reflexivity.
Qed.

(** X14. [copyHeaders] gives the same header in whatever order the entries
    of the source are visited: every name of the source with the values it
    has there, replacing what the destination had under that name, and the
    other names of the destination as they were. *)
Theorem copyHeaders_overrides_in_any_order (src dest : gmap string (list string))
    (order : list (string * list string)) :
  order ≡ₚ map_to_list src ->
  copyHeadersIn order dest = src ∪ dest
  /\ (forall name values, src !! name = Some values ->
        copyHeadersIn order dest !! name = Some values)
  /\ (forall name, src !! name = None ->
        copyHeadersIn order dest !! name = dest !! name).
Proof.
  intros Hperm. rewrite (copyHeadersIn_union src dest order Hperm).
  split; [reflexivity|]. split.
  - intros name values Hsrc. now apply lookup_union_Some_l.
  - intros name Hsrc. now apply lookup_union_r.
Qed.

Lemma setHeadersIn_canonical (order : list (string * string))
    (header : gmap string (list string)) :
  Forall (fun kv => CanonicalMIMEHeaderKey kv.1 = kv.1) order ->
  setHeadersIn order header
  = copyHeadersIn (prod_map id (fun v => [v]) <$> order) header.
Proof.
  revert header. induction order as [|[k v] order IH]; intros header Hcanon.
  - reflexivity.
  - apply Forall_cons in Hcanon. destruct Hcanon as [Hk Hcanon].
    change (setHeadersIn ((k, v) :: order) header)
      with (setHeadersIn order (HeaderSet k v header)).
    rewrite IH by exact Hcanon. unfold HeaderSet. simpl in Hk. rewrite Hk.
    reflexivity.
Qed.

Lemma setHeadersIn_union (headers : gmap string string)
    (header : gmap string (list string)) (order : list (string * string)) :
  (forall k v, headers !! k = Some v -> CanonicalMIMEHeaderKey k = k) ->
  order ≡ₚ map_to_list headers ->
  setHeadersIn order header = ((fun v => [v]) <$> headers) ∪ header.
Proof.
  intros Hcanon Hperm. rewrite setHeadersIn_canonical.
  - apply copyHeadersIn_union. rewrite Hperm, map_to_list_fmap. reflexivity.
  - rewrite Hperm. apply Forall_forall. intros [k v] Hin.
    apply elem_of_map_to_list in Hin. exact (Hcanon k v Hin).
Qed.

(** X15. [setHeaders] with names in canonical form gives the same header in
    whatever order the map is visited: each name with its one value, over
    what the request had. *)
Theorem setHeaders_in_any_order (headers : gmap string string)
    (header : gmap string (list string)) (order : list (string * string)) :
  (forall k v, headers !! k = Some v -> CanonicalMIMEHeaderKey k = k) ->
  order ≡ₚ map_to_list headers ->
  (forall k v, headers !! k = Some v -> setHeadersIn order header !! k = Some [v])
  /\ (forall k, headers !! k = None -> setHeadersIn order header !! k = header !! k).
Proof.
  intros Hcanon Hperm. rewrite (setHeadersIn_union headers header order Hcanon Hperm).
  split.
  - intros k v Hk. apply lookup_union_Some_l. now rewrite lookup_fmap, Hk.
  - intros k Hk. apply lookup_union_r. now rewrite lookup_fmap, Hk.
Qed.

(** X16. The request to the moderation endpoint carries exactly two
    headers, the JSON content type and the bearer token of the configured
    key, in whatever order [setHeaders] visits its map. *)
Theorem moderation_request_headers (config : Config) (order : list (string * string)) :
  order ≡ₚ map_to_list (moderationHeaders config) ->
  setHeadersIn order ∅
  = <["Content-Type" := ["application/json"]]>
      (<["Authorization" := [("Bearer " ++ OpenAIAPIKey config)%string]]> ∅).
Proof.
  intros Hperm. rewrite (setHeadersIn_union (moderationHeaders config) ∅ order).
  - rewrite (right_id_L ∅ (∪)). unfold moderationHeaders.
    rewrite !fmap_insert, fmap_empty. reflexivity.
  - intros k v Hk. unfold moderationHeaders in Hk.
    apply lookup_insert_Some in Hk. destruct Hk as [[<- _]|[_ Hk]]; [reflexivity|].
    apply lookup_insert_Some in Hk. destruct Hk as [[<- _]|[_ Hk]]; [reflexivity|].
    discriminate.
  - exact Hperm.
Qed.

(** X17. The forwarded request has the content type [application/json]
    whatever the client sent under that name, and every other header of the
    client as it came. *)
Theorem forwarded_request_headers (inbound : gmap string (list string))
    (order : list (string * list string)) :
  order ≡ₚ map_to_list inbound ->
  proxyRequestHeader order !! "Content-Type" = Some ["application/json"]
  /\ (forall name, name <> "Content-Type" ->
        proxyRequestHeader order !! name = inbound !! name).
Proof.
  intros Hperm. unfold proxyRequestHeader, HeaderSet.
  change (CanonicalMIMEHeaderKey "Content-Type") with "Content-Type".
  rewrite (copyHeadersIn_union inbound ∅ order Hperm), (right_id_L ∅ (∪)).
  split; [apply lookup_insert_eq|].
  intros name Hne. rewrite lookup_insert_ne by congruence. reflexivity.
Qed.

(** ** Content extractor, further *)

Lemma collectContents_filter (messages : list Message) (userContents : list string) :
  collectContents messages userContents
  = userContents
    ++ List.map Content
         (List.filter
            (fun msg => (Role msg =? "user")%string || (Role msg =? "system")%string)
            messages).
Proof.
  revert userContents. induction messages as [|msg messages IH]; intros userContents.
  - simpl. now rewrite app_nil_r.
  - simpl. destruct ((Role msg =? "user")%string || (Role msg =? "system")%string).
    + rewrite IH, <- app_assoc. reflexivity.
    + apply IH.
Qed.

(** X18. [getUserContent] joins with single spaces the contents of the
    messages of role "user" or "system", in their order; messages of any
    other role do not count. *)
Theorem getUserContent_joins_user_and_system (messages : list Message) :
  getUserContent messages
  = Join (List.map Content
            (List.filter
               (fun msg => (Role msg =? "user")%string || (Role msg =? "system")%string)
               messages)) " ".
Proof. unfold getUserContent. now rewrite collectContents_filter. Qed.

Lemma lastUser_app_user (pre post : list Message) (msg : Message) :
  Role msg = "user" ->
  Forall (fun m => Role m <> "user") post ->
  lastUser (pre ++ msg :: post) = Some (Content msg).
Proof.
  intros Hrole Hpost. induction pre as [|m pre IH].
  - simpl. assert (Hnone : lastUser post = None).
    { induction Hpost as [|m post Hm _ IH]; [reflexivity|]. simpl. rewrite IH.
      destruct (String.eqb_spec (Role m) "user"); [contradiction|reflexivity]. }
    rewrite Hnone, Hrole. reflexivity.
  - simpl. now rewrite IH.
Qed.

(** X19. In last-message mode, when the request has a message of role
    "user", the text under the threshold test is the content of the last
    such message, whatever the other messages hold. *)
Theorem last_user_message_is_the_text (config : Config) (chatReq : OpenAIChatReq)
    (pre post : list Message) (msg : Message) :
  FullContextModerate config = false ->
  Messages chatReq = pre ++ msg :: post ->
  Role msg = "user" ->
  Forall (fun m => Role m <> "user") post ->
  moderationText config chatReq = Content msg.
Proof.
  intros Hmode Hmsgs Hrole Hpost.
  rewrite (moderationText_last_mode config chatReq Hmode), Hmsgs.
  now rewrite (lastUser_app_user pre post msg Hrole Hpost).
Qed.

(** ** Chunker, further *)

(** The chunks of the loop from position [i] on, by index. *)
Lemma splitLoop_lookup (text : string) (n : nat) :
  forall (i : Z) (result : list string) (j : nat),
    0 <= i -> Z.to_nat (len text - i) = n ->
    splitLoop text i result !! (List.length result + j)%nat =
      if decide (i + 48000 * Z.of_nat j < len text)
      then Some (slice text (i + 48000 * Z.of_nat j)
                   (Z.min (i + 48000 * (Z.of_nat j + 1)) (len text)))
      else None.
Proof.
  induction n as [n IH] using lt_wf_ind. intros i result j Hi Hn.
  rewrite splitLoop_step. destruct (decide (i < len text)) as [Hlt|Hge].
  - destruct j as [|j].
    + destruct (splitLoop_spec text _ (i + 48000)
                  (result ++ [slice text i (if i + 48000 >? len text then len text
                                            else i + 48000)])
                  ltac:(lia) eq_refl) as (tail & -> & _).
      rewrite Nat.add_0_r, <- app_assoc, lookup_app_r by lia.
      rewrite Nat.sub_diag. simpl lookup.
      destruct (decide (i + 48000 * Z.of_nat 0 < len text)); [|lia].
      do 2 f_equal; [lia|].
      destruct (Z.gtb_spec (i + 48000) (len text)); lia.
    + specialize (IH (Z.to_nat (len text - (i + 48000))) ltac:(lia)
                    (i + 48000)
                    (result ++ [slice text i (if i + 48000 >? len text then len text
                                              else i + 48000)])
                    j ltac:(lia) eq_refl).
      rewrite length_app in IH. simpl in IH.
      replace (List.length result + S j)%nat
        with (List.length result + 1 + j)%nat by lia.
      rewrite IH.
      replace (i + 48000 + 48000 * Z.of_nat j) with (i + 48000 * Z.of_nat (S j)) by lia.
      replace (i + 48000 + 48000 * (Z.of_nat j + 1))
        with (i + 48000 * (Z.of_nat (S j) + 1)) by lia.
      reflexivity.
  - rewrite lookup_ge_None_2 by lia.
    destruct (decide (i + 48000 * Z.of_nat j < len text)); [lia|reflexivity].
Qed.

Lemma splitText_lookup (text : string) (j : nat) :
  splitText text !! j =
    if decide (48000 * Z.of_nat j < len text \/ j = 0%nat)
    then Some (slice text (48000 * Z.of_nat j)
                 (Z.min (48000 * (Z.of_nat j + 1)) (len text)))
    else None.
Proof.
  unfold splitText. destruct (Z.leb_spec (len text) 48000) as [Hle|Hgt].
  - destruct j as [|j]; simpl.
    + destruct (decide _) as [_|Hno]; [|exfalso; apply Hno; now right].
      f_equal. unfold slice. pose proof (len_nonneg text).
      rewrite Z.min_r by lia. rewrite Z.sub_0_r. unfold len. rewrite Nat2Z.id.
      symmetry. apply substring_whole.
    + destruct (decide _) as [[Hlt|Heq]|_]; [lia|discriminate|reflexivity].
  - pose proof (splitLoop_lookup text _ 0 [] j ltac:(lia) eq_refl) as Hj.
    simpl in Hj. rewrite Hj.
    destruct (decide (0 + 48000 * Z.of_nat j < len text)) as [Hlt|Hge];
      destruct (decide _) as [Hyes|Hno]; try reflexivity.
    + exfalso. apply Hno. left. lia.
    + exfalso. destruct Hyes as [Hlt| ->]; lia.
Qed.

(** X20. The chunk of index [j] is the slice of the text from byte
    [48000 * j] to byte [48000 * (j + 1)], or to the end of the text if that
    comes first; there is such a chunk when the text is longer than
    [48000 * j] bytes, and there is always a chunk of index 0. *)
Theorem splitText_chunk_by_index (text : string) (j : nat) (c : string) :
  splitText text !! j = Some c
  <-> (48000 * Z.of_nat j < len text \/ j = 0%nat)
      /\ c = slice text (48000 * Z.of_nat j)
               (Z.min (48000 * (Z.of_nat j + 1)) (len text)).
Proof.
  rewrite splitText_lookup. destruct (decide _) as [Hyes|Hno].
  - split; [intros [= <-]; auto|]. intros [_ ->]. reflexivity.
  - split; [discriminate|]. intros [Hyes _]. contradiction.
Qed.

(** X21. The number of chunks is the length of the text divided by 48000,
    rounded up, and 1 for the empty text. *)
Theorem splitText_chunk_count (text : string) :
  Z.of_nat (List.length (splitText text)) = Z.max 1 ((len text + 47999) / 48000).
Proof.
  set (n := Z.max 1 ((len text + 47999) / 48000)).
  pose proof (len_nonneg text) as Hlen.
  assert (Hdiv : 48000 * ((len text + 47999) / 48000) <= len text + 47999
                 < 48000 * ((len text + 47999) / 48000) + 48000).
  { pose proof (Z.div_mod (len text + 47999) 48000 ltac:(lia)).
    pose proof (Z.mod_pos_bound (len text + 47999) 48000 ltac:(lia)). lia. }
  assert (Hn : 1 <= n) by (unfold n; lia).
  assert (Hin : forall j : nat, (Z.of_nat j < n <-> is_Some (splitText text !! j))).
  { intros j. rewrite splitText_lookup. destruct (decide _) as [Hyes|Hno].
    - split; [eauto|]. intros _. destruct Hyes as [Hlt| ->]; unfold n; lia.
    - split; [|intros [c Hc]; discriminate]. intros Hlt. exfalso. apply Hno.
      destruct j; [now right|left]. unfold n in Hlt. lia. }
  destruct (Z_lt_le_dec (Z.of_nat (List.length (splitText text))) n) as [Hlt|Hge].
  - apply Hin in Hlt. apply lookup_lt_is_Some in Hlt. lia.
  - destruct (Z_le_lt_eq_dec _ _ Hge) as [Hgt|Heq]; [|lia].
    assert (Hsome : is_Some (splitText text !! Z.to_nat n)).
    { apply lookup_lt_is_Some. lia. }
    apply Hin in Hsome. lia.
Qed.

(** X22. No chunk of a text that is not empty is empty. *)
Theorem splitText_chunks_not_empty (text : string) :
  0 < len text ->
  Forall (fun c => 0 < len c) (splitText text).
Proof.
  intros Hpos. apply Forall_lookup. intros j c Hj.
  rewrite splitText_lookup in Hj. destruct (decide _) as [Hyes|Hno]; [|discriminate].
  injection Hj as <-.
  assert (Hlt : 48000 * Z.of_nat j < len text) by (destruct Hyes as [H| ->]; lia).
  rewrite slice_len; lia.
Qed.

(** ** Moderation client and synthesizer, further *)

(** X23. Every chunk but the last of a text in several chunks is sent with
    the model "text-moderation-latest", and a text of fewer than 4096 bytes
    is sent whole, in one call, with "omni-moderation-latest". *)
Theorem chunk_moderation_model {Body : Type} (env : Env Body) (text : string)
    (tr : list (Event Body)) :
  (forall (j : nat) (c : string),
     splitText text !! j = Some c ->
     (S j < List.length (splitText text))%nat ->
     (moderateContent env c tr).2
     = tr ++ [EvModerate (<["input" := c]> (<["model" := "text-moderation-latest"]> ∅))])
  /\ (len text < 4096 ->
      splitText text = [text]
      /\ (moderateContent env text tr).2
         = tr ++ [EvModerate (<["input" := text]> (<["model" := "omni-moderation-latest"]> ∅))]).
Proof.
  split.
  - intros j c Hj Hlast. rewrite moderateContent_run. simpl. unfold moderationInput.
    assert (Hlen : len c = 48000).
    { apply lookup_lt_is_Some_2 in Hlast. destruct Hlast as [c' Hc'].
      rewrite splitText_lookup in Hj, Hc'.
      destruct (decide _) as [Hyes|]; [|discriminate].
      destruct (decide _) as [Hnext|]; [|discriminate].
      injection Hj as <-.
      assert (48000 * Z.of_nat (S j) < len text)
        by (destruct Hnext as [H|H]; [exact H|discriminate]).
      rewrite slice_len; lia. }
    rewrite Hlen. reflexivity.
  - intros Hshort. split.
    + unfold splitText. destruct (Z.leb_spec (len text) 48000); [reflexivity|lia].
    + rewrite moderateContent_run. simpl. unfold moderationInput.
      destruct (Z.ltb_spec (len text) 4096); [reflexivity|lia].
Qed.

(** X24. The moderation client reports a chunk as flagged exactly when the
    endpoint answers 200 with a body that decodes and whose first result is
    flagged; further results are not looked at, and a body without results
    is not a flag. *)
Theorem flagged_iff_first_result {Body : Type} (env : Env Body) (content : string)
    (tr : list (Event Body)) :
  (moderateContent env content tr).1 = Ok true
  <-> exists rest : list bool,
        moderationAPI env (moderationCalls tr) (moderationInput content)
        = Responds 200 (Ok {| Results := true :: rest |}).
Proof.
  rewrite moderateContent_run. simpl. unfold chunkVerdict, verdict.
  destruct (moderationAPI env (moderationCalls tr) (moderationInput content))
    as [e|e|status [[results]|e]].
  - split; [discriminate|]. intros [rest Hrest]. discriminate.
  - split; [discriminate|]. intros [rest Hrest]. discriminate.
  - destruct (Z.eqb_spec status 200) as [->|Hne].
    + simpl. destruct results as [|[|] rest].
      * split; [discriminate|]. intros [rest Hrest]. discriminate.
      * split; [eauto|reflexivity].
      * split; [discriminate|]. intros [rest' Hrest]. discriminate.
    + split; [discriminate|]. intros [rest Hrest]. congruence.
  - destruct (status =? 200); (split; [discriminate|]);
      intros [rest Hrest]; discriminate.
Qed.


(** ** The further properties on concrete requests *)

(** X2 on the request "hi" under a minimum of 5: one forward, alone in the
    trace. *)
Lemma forwards_at_most_once_and_last_witness :
  let config := configWith 5 false [] in
  let env := envWith (fun _ => flagged) in
  let body := requestJSON "x" [("user", "hi")] false [] in
  let run := handleChatCompletions config env (Ok body) [] in
  EvProxy body ∈ run.2
  /\ exists pre, run.2 = pre ++ [EvProxy body]
       /\ (forall e, e ∈ pre -> isModerate e = true)
       /\ List.filter isProxy run.2 = [EvProxy body].
Proof.
  intros config env body run.
  assert (Hin : EvProxy body ∈ run.2) by left.
  split; [exact Hin|].
  exact (forwards_at_most_once_and_last config env (Ok body) body Hin).
Defined.

(** X3 on the same request: the forwarded body is the inbound one, no model
    being chosen for a content of two bytes. *)
Lemma forwarded_body_is_rewrite_result_witness :
  let config := configWith 5 false [] in
  let env := envWith (fun _ => flagged) in
  let body := requestJSON "x" [("user", "hi")] false [] in
  EvProxy body ∈ (handleChatCompletions config env (Ok body) []).2
  /\ exists body0 chatReq,
       Ok body = Ok body0
       /\ UnmarshalChatReq body0 = Ok chatReq
       /\ (if (chooseReplaceModel (getUserContent (Messages chatReq)) =? "")%string
           then body = body0
           else replaceModelValue body0
                  (chooseReplaceModel (getUserContent (Messages chatReq))) = Ok body).
Proof.
  intros config env body.
  assert (Hin : EvProxy body ∈ (handleChatCompletions config env (Ok body) []).2)
    by left.
  split; [exact Hin|].
  exact (forwarded_body_is_rewrite_result config env (Ok body) body Hin).
Defined.

(** X4 on the same request. *)
Lemma small_request_forwarded_verbatim_witness :
  let config := configWith 5 false [] in
  let env := envWith (fun _ => flagged) in
  let body := requestJSON "x" [("user", "hi")] false [] in
  let chatReq :=
    {| Model := "x"; Messages := [ {| Role := "user"; Content := "hi" |} ];
       Stream := false |} in
  UnmarshalChatReq body = Ok chatReq
  /\ len (getUserContent (Messages chatReq)) <= 10240
  /\ EvProxy body ∈ (handleChatCompletions config env (Ok body) []).2
  /\ body = body.
Proof.
  intros config env body chatReq.
  assert (Hreq : UnmarshalChatReq body = Ok chatReq) by reflexivity.
  assert (Hlen : len (getUserContent (Messages chatReq)) <= 10240) by discriminate.
  assert (Hin : EvProxy body ∈ (handleChatCompletions config env (Ok body) []).2)
    by left.
  split; [exact Hreq|]. split; [exact Hlen|]. split; [exact Hin|].
  exact (small_request_forwarded_verbatim config env body body chatReq Hreq Hlen Hin).
Defined.

(** X1 on three requests to a gateway whose target answers 400: the request
    "hi" is forwarded and the target's 400 is relayed; a body that is a JSON
    string, and a body that cannot be read, are answered 400 by the handler
    and nothing is forwarded. *)
Lemma status_400_origins_witness :
  let config := configWith 5 false [] in
  let env : Env json :=
    {| moderationAPI := fun _ _ => unflagged;
       downstream := fun _ => ProxyResponds 400 "bad request";
       appendFails := false;
       uuid1 := "123e4567-e89b-12d3-a456-426614174000";
       uuid2 := "00112233-4455-6677-8899-aabbccddeeff";
       unixNow := 1700000000 |} in
  let body := requestJSON "x" [("user", "hi")] false [] in
  (let run := handleChatCompletions config env (Ok body) [] in
   EvProxy body ∈ run.2
   /\ run.1 = ReplyProxied 400 "bad request"
   /\ replyStatus run.1 = 400)
  /\ (let run := handleChatCompletions config env (Ok (JString "hi")) [] in
      (exists e, UnmarshalChatReq (JString "hi") = Err e /\ run = (ReplyError 400 e, []))
      /\ replyStatus run.1 = 400)
  /\ (let run := handleChatCompletions config env (Err "unexpected EOF") [] in
      run = (ReplyError 400 "Error reading request body", [])
      /\ replyStatus run.1 = 400).
Proof.
  intros config env body. split; [|split].
  - intros run.
    assert (Hin : EvProxy body ∈ run.2) by left.
    assert (Hdown : downstream env body = ProxyResponds 400 "bad request")
      by reflexivity.
    destruct (status_400_origins config env (Ok body)) as (Hiff & _ & _ & Hrelay).
    split; [exact Hin|]. split; [exact (Hrelay body 400 "bad request" Hin Hdown)|].
    apply Hiff. right. right. exists body, "bad request". split; [exact Hin|exact Hdown].
  - intros run.
    destruct (UnmarshalChatReq (JString "hi")) as [chatReq|e] eqn:Hreq;
      [discriminate|].
    destruct (status_400_origins config env (Ok (JString "hi")))
      as (Hiff & _ & Hdecode & _).
    split; [exists e; split; [reflexivity|exact (Hdecode _ e eq_refl Hreq)]|].
    apply Hiff. right. left. exists (JString "hi"), e. split; [reflexivity|exact Hreq].
  - intros run.
    destruct (status_400_origins config env (Err "unexpected EOF"))
      as (Hiff & Hread & _ & _).
    split; [exact (Hread _ eq_refl)|].
    apply Hiff. left. exists "unexpected EOF". reflexivity.
Defined.

(** X10 on the request "this is flagged content": with an endpoint that
    flags, the log file gains the text and a newline; with one that passes,
    the file is not written. *)
Lemma log_file_gains_flagged_chunk_witness :
  let config := configWith 5 false [] in
  let content := "this is flagged content" in
  let body := requestJSON "x" [("user", content)] false [] in
  (let run := handleChatCompletions config (envWith (fun _ => flagged)) (Ok body) [] in
   EvFlagged content ∈ run.2
   /\ logFileAfter "earlier entry" run.2
      = ("earlier entry" ++ (content ++ String "010" ""))%string)
  /\ (let run := handleChatCompletions config (envWith (fun _ => unflagged)) (Ok body) [] in
      List.filter isFlagged run.2 = []
      /\ List.filter isAppend run.2 = []
      /\ logFileAfter "earlier entry" run.2 = "earlier entry").
Proof.
  intros config content body. split.
  - intros run.
    assert (Hin : EvFlagged content ∈ run.2) by (right; left).
    split; [exact Hin|].
    destruct (log_file_gains_flagged_chunk config (envWith (fun _ => flagged))
                (Ok body) "earlier entry") as [_ Hflagged].
    exact (proj2 (Hflagged content Hin eq_refl)).
  - intros run.
    assert (Hnone : List.filter isFlagged run.2 = []) by reflexivity.
    split; [exact Hnone|].
    destruct (log_file_gains_flagged_chunk config (envWith (fun _ => unflagged))
                (Ok body) "earlier entry") as [Hclean _].
    exact (Hclean Hnone).
Defined.

(** X5 on the request "this is flagged content" with an endpoint that
    flags: [moderateContent] is called on the text, the text is logged,
    nothing is forwarded, and the reply is the rejection for model "x" as the
    body of a 200. *)
Lemma flagged_request_is_not_forwarded_witness :
  let config := configWith 5 false [] in
  let env := envWith (fun _ => flagged) in
  let content := "this is flagged content" in
  let body := requestJSON "x" [("user", content)] false [] in
  let run := handleChatCompletions config env (Ok body) [] in
  EvFlagged content ∈ run.2
  /\ EvModerate (moderationInput content) ∈ run.2
  /\ List.filter isFlagged run.2 = [EvFlagged content]
  /\ List.filter isProxy run.2 = []
  /\ run.1 =
       ReplyJSON 200
         {| ID := "chatcmpl-123e4567-e89b-12d3-a456-";
            Object := "chat.completion.chunk";
            Created := 1700000000;
            RespModel := "x";
            SystemFingerprint := "fp_00112233-445";
            Choices := [ {| Index := 0;
                            Delta := {[ "content" := "content rejected" ]};
                            Logprobs := None;
                            FinishReason := "stop" |} ] |}.
Proof.
  intros config env content body run.
  assert (Hin : EvFlagged content ∈ run.2) by (right; left).
  split; [exact Hin|].
  destruct (flagged_request_is_not_forwarded config env (Ok body) content Hin)
    as (Hmod & Hflag & Hproxy & body0 & chatReq & Hbody & Hreq & _ & Hreply).
  split; [exact Hmod|]. split; [exact Hflag|]. split; [exact Hproxy|].
  injection Hbody as <-.
  assert (Hreq' : UnmarshalChatReq body
                  = Ok {| Model := "x";
                          Messages := [ {| Role := "user"; Content := content |} ];
                          Stream := false |}) by reflexivity.
  rewrite Hreq' in Hreq. injection Hreq as <-. exact Hreply.
Defined.

(** X6 on the same request: one call, on the one chunk of the text. *)
Lemma moderated_inputs_are_leading_chunks_witness :
  let config := configWith 5 false [] in
  let env := envWith (fun _ => flagged) in
  let content := "this is flagged content" in
  let body := requestJSON "x" [("user", content)] false [] in
  let chatReq :=
    {| Model := "x"; Messages := [ {| Role := "user"; Content := content |} ];
       Stream := false |} in
  let run := handleChatCompletions config env (Ok body) [] in
  UnmarshalChatReq body = Ok chatReq
  /\ exists n : nat,
       (n <= List.length (splitText (moderationText config chatReq)))%nat
       /\ List.filter isModerate run.2
          = moderated (take n (splitText (moderationText config chatReq))).
Proof.
  intros config env content body chatReq run.
  assert (Hreq : UnmarshalChatReq body = Ok chatReq) by reflexivity.
  split; [exact Hreq|].
  exact (moderated_inputs_are_leading_chunks config env body chatReq Hreq).
Defined.

(** X8 on the request "hi", forwarded under a minimum of 5 in last-message
    mode and under a minimum of 0 in full-context mode with an endpoint that
    passes it. *)
Lemma forwarded_body_depends_on_body_only_witness :
  let body := requestJSON "x" [("user", "hi")] false [] in
  let run := handleChatCompletions (configWith 5 false [])
               (envWith (fun _ => flagged)) (Ok body) [] in
  let run' := handleChatCompletions (configWith 0 true [])
                (envWith (fun _ => unflagged)) (Ok body) [] in
  EvProxy body ∈ run.2 /\ EvProxy body ∈ run'.2 /\ body = body.
Proof.
  intros body run run'.
  assert (Hin : EvProxy body ∈ run.2) by left.
  assert (Hin' : EvProxy body ∈ run'.2) by (right; left).
  split; [exact Hin|]. split; [exact Hin'|].
  exact (forwarded_body_depends_on_body_only _ _ _ _ (Ok body) body body Hin Hin').
Defined.

(** X9 on the request [{"model": "x"}] under a minimum of 0. *)
Lemma empty_request_is_moderated_once_witness :
  let config := configWith 0 false [] in
  let env := envWith (fun _ => unflagged) in
  let body := JObject [("model", JString "x")] in
  let chatReq := {| Model := "x"; Messages := []; Stream := false |} in
  UnmarshalChatReq body = Ok chatReq
  /\ Messages chatReq = []
  /\ (Model chatReq ∉ WhiteListModels config)
  /\ MinCharsModerate config <= 0
  /\ List.filter isModerate (handleChatCompletions config env (Ok body) []).2
     = [EvModerate (moderationInput "")].
Proof.
  intros config env body chatReq.
  assert (Hreq : UnmarshalChatReq body = Ok chatReq) by reflexivity.
  assert (Hout : Model chatReq ∉ WhiteListModels config) by apply not_elem_of_nil.
  assert (Hmin : MinCharsModerate config <= 0) by discriminate.
  split; [exact Hreq|]. split; [reflexivity|]. split; [exact Hout|].
  split; [exact Hmin|].
  exact (empty_request_is_moderated_once config env body chatReq Hreq eq_refl Hout Hmin).
Defined.

(** X11 on a log of one line and a flagged text of two lines. *)
Lemma viewer_shows_logged_chunk_witness :
  let env := envWith (fun _ => flagged) in
  let file := ("first" ++ String "010" "")%string in
  let content := ("second" ++ String "010" "line")%string in
  appendFails env = false
  /\ GetBanndedContent (Ok (logFileAfter file (logFlaggedContent env content []).2))
     = ViewerData 200 "text/html; charset=utf-8"
         "<html><body>first<br>second<br>line<br></body></html>".
Proof.
  intros env file content. split; [reflexivity|].
  exact (viewer_shows_logged_chunk env file content eq_refl).
Defined.

(** X13 on a logged script tag. *)
Lemma viewer_embeds_log_verbatim_witness :
  let content := "<script>alert(1)</script>" in
  allBytes (fun c => negb (Ascii.eqb c "010")) content = true
  /\ GetBanndedContent (Ok (content ++ String "010" "")%string)
     = ViewerData 200 "text/html; charset=utf-8"
         "<html><body><script>alert(1)</script><br></body></html>".
Proof.
  intros content. split; [reflexivity|].
  exact (viewer_embeds_log_verbatim "" content eq_refl).
Defined.

Ltac two_entries := vm_compute; first [reflexivity | apply perm_swap].

(** X14 on a response header copied over a writer header that already has a
    content type. *)
Lemma copyHeaders_overrides_in_any_order_witness :
  let src : gmap string (list string) :=
    <["Content-Type" := ["text/event-stream"]]> (<["X-Request-Id" := ["7"]]> ∅) in
  let dest : gmap string (list string) :=
    <["Content-Type" := ["text/plain"]]> (<["Server" := ["gin"]]> ∅) in
  let order := [("X-Request-Id", ["7"]); ("Content-Type", ["text/event-stream"])] in
  order ≡ₚ map_to_list src
  /\ copyHeadersIn order dest !! "Content-Type" = Some ["text/event-stream"]
  /\ copyHeadersIn order dest !! "Server" = dest !! "Server".
Proof.
  intros src dest order.
  assert (Hperm : order ≡ₚ map_to_list src) by two_entries.
  split; [exact Hperm|].
  destruct (copyHeaders_overrides_in_any_order src dest order Hperm)
    as (_ & Hsrc & Hdest).
  split; [apply Hsrc; reflexivity|apply Hdest; reflexivity].
Defined.

(** X15 on the two headers of the moderation request over a request that
    already has an [Accept] header. *)
Lemma setHeaders_in_any_order_witness :
  let headers : gmap string string :=
    <["Content-Type" := "application/json"]> (<["Authorization" := "Bearer k"]> ∅) in
  let header : gmap string (list string) := <["Accept" := ["*/*"]]> ∅ in
  let order := [("Authorization", "Bearer k"); ("Content-Type", "application/json")] in
  (forall k v, headers !! k = Some v -> CanonicalMIMEHeaderKey k = k)
  /\ order ≡ₚ map_to_list headers
  /\ setHeadersIn order header !! "Authorization" = Some ["Bearer k"]
  /\ setHeadersIn order header !! "Accept" = header !! "Accept".
Proof.
  intros headers header order.
  assert (Hcanon : forall k v, headers !! k = Some v -> CanonicalMIMEHeaderKey k = k).
  { intros k v Hk. unfold headers in Hk.
    apply lookup_insert_Some in Hk. destruct Hk as [[<- _]|[_ Hk]]; [reflexivity|].
    apply lookup_insert_Some in Hk. destruct Hk as [[<- _]|[_ Hk]]; [reflexivity|].
    discriminate. }
  assert (Hperm : order ≡ₚ map_to_list headers) by two_entries.
  split; [exact Hcanon|]. split; [exact Hperm|].
  destruct (setHeaders_in_any_order headers header order Hcanon Hperm)
    as (Hset & Hkept).
  split; [apply Hset; reflexivity|apply Hkept; reflexivity].
Defined.

(** X16 with the key "sk-test", the map visited from [Authorization]. *)
Lemma moderation_request_headers_witness :
  let config := configWith 5 false [] in
  let order := [("Authorization", "Bearer sk-test"); ("Content-Type", "application/json")] in
  order ≡ₚ map_to_list (moderationHeaders config)
  /\ setHeadersIn order ∅
     = <["Content-Type" := ["application/json"]]>
         (<["Authorization" := ["Bearer sk-test"]]> ∅).
Proof.
  intros config order.
  assert (Hperm : order ≡ₚ map_to_list (moderationHeaders config)) by two_entries.
  split; [exact Hperm|].
  exact (moderation_request_headers config order Hperm).
Defined.

(** X17 on a client that sent a text content type and a bearer token. *)
Lemma forwarded_request_headers_witness :
  let inbound : gmap string (list string) :=
    <["Content-Type" := ["text/plain"]]> (<["Authorization" := ["Bearer c"]]> ∅) in
  let order := [("Content-Type", ["text/plain"]); ("Authorization", ["Bearer c"])] in
  order ≡ₚ map_to_list inbound
  /\ proxyRequestHeader order !! "Content-Type" = Some ["application/json"]
  /\ proxyRequestHeader order !! "Authorization" = Some ["Bearer c"].
Proof.
  intros inbound order.
  assert (Hperm : order ≡ₚ map_to_list inbound) by two_entries.
  split; [exact Hperm|].
  destruct (forwarded_request_headers inbound order Hperm) as (Htype & Hother).
  split; [exact Htype|]. exact (Hother "Authorization" ltac:(discriminate)).
Defined.

(** X19 on a conversation that ends with an assistant message. *)
Lemma last_user_message_is_the_text_witness :
  let config := configWith 5 false [] in
  let first := {| Role := "user"; Content := "first question" |} in
  let answer := {| Role := "assistant"; Content := "an answer" |} in
  let second := {| Role := "user"; Content := "second question" |} in
  let chatReq :=
    {| Model := "x"; Messages := [first; answer; second; answer]; Stream := false |} in
  FullContextModerate config = false
  /\ Messages chatReq = [first; answer] ++ second :: [answer]
  /\ Role second = "user"
  /\ Forall (fun m => Role m <> "user") [answer]
  /\ moderationText config chatReq = "second question".
Proof.
  intros config first answer second chatReq.
  assert (Hpost : Forall (fun m => Role m <> "user") [answer])
    by (repeat constructor; discriminate).
  split; [reflexivity|]. split; [reflexivity|]. split; [reflexivity|].
  split; [exact Hpost|].
  exact (last_user_message_is_the_text config chatReq [first; answer] [answer] second
           eq_refl eq_refl eq_refl Hpost).
Defined.

(** X22 on a text of 100000 bytes. *)
Lemma splitText_chunks_not_empty_witness :
  let text := repeatByte "a" (Z.to_nat 100000) in
  0 < len text /\ Forall (fun c => 0 < len c) (splitText text).
Proof.
  intros text.
  assert (Hpos : 0 < len text) by (unfold text; now rewrite len_repeatByte).
  split; [exact Hpos|]. exact (splitText_chunks_not_empty text Hpos).
Defined.
